(** * helix-queries: the query template header parser and the streaming executor

    A shallow embedding of [src/sendquery.js] ([loadQuery],
    [getExtraParameters], [execute]) and of the JSON branch of [runExec]
    in the action's entry point, with the properties the specification
    states about them. *)

From Stdlib Require Import List String Ascii Bool Arith ZArith QArith Lia.
From Stdlib Require Import Permutation Lqa DecimalString DecimalPos.
Import ListNotations.

Local Close Scope Q_scope.
Local Open Scope nat_scope.
Local Open Scope string_scope.
Local Open Scope list_scope.

(** ** JavaScript strings

    A string is a sequence of code units; the ones the program inspects
    (["-"], [":"], [" "], the line feed, ["/"], ["."]) are all ASCII. *)

Module JSString.

(** The line feed, ['\n']. *)
Definition LF : string := String (ascii_of_nat 10) "".

(** [s.startsWith(p)] *)
Definition startsWith (p s : string) : bool := prefix p s.

(** [s.indexOf(needle)], scanning from [i]: the first position at which
    [needle] occurs, [-1] when there is none. *)
Fixpoint indexOf_from (needle s : string) (i : Z) : Z :=
  if prefix needle s then i
  else match s with
       | "" => (-1)%Z
       | String _ s' => indexOf_from needle s' (i + 1)%Z
       end.

Definition indexOf (needle s : string) : Z := indexOf_from needle s 0%Z.

(** [s.substring(n)]: [s] without its first [n] code units. *)
Fixpoint substring (n : nat) (s : string) : string :=
  match n, s with
  | O, _ => s
  | S _, "" => ""
  | S n', String _ s' => substring n' s'
  end.

(** The code unit [c] put in front of the first of the pieces. *)
Definition push_front (c : ascii) (pieces : list string) : list string :=
  match pieces with
  | piece :: rest => String c piece :: rest
  | [] => [String c ""]
  end.

(** [s.split(sep)] for a non-empty separator.  The scan goes left to right;
    at an occurrence of [sep] the current piece is closed and the next
    [length sep] code units are skipped ([skip] counts the ones still to
    skip).  The head of the result is the piece under construction, so the
    result is never empty: [''.split(sep)] is [['']]. *)
Fixpoint split_from (sep : string) (skip : nat) (s : string) : list string :=
  match s with
  | "" => [""]
  | String c s' =>
      match skip with
      | S k => split_from sep k s'
      | O =>
          if prefix sep s then "" :: split_from sep (length sep - 1) s'
          else push_front c (split_from sep 0 s')
      end
  end.

Definition split (sep s : string) : list string := split_from sep 0 s.

(** [a.join(sep)] *)
Fixpoint join (sep : string) (l : list string) : string :=
  match l with
  | [] => ""
  | [x] => x
  | x :: rest => x ++ sep ++ join sep rest
  end.

(** [s.endsWith(p)] *)
Fixpoint endsWith (p s : string) : bool :=
  String.eqb p s ||
  match s with
  | "" => false
  | String _ s' => endsWith p s'
  end.

(** [s.replace(/^\//, '')]: one leading slash is dropped. *)
Definition strip_leading_slash (s : string) : string :=
  match s with
  | String "/" s' => s'
  | _ => s
  end.

(** Whether [needle] occurs somewhere in [s]. *)
Fixpoint occurs (needle s : string) : bool :=
  prefix needle s ||
  match s with
  | "" => false
  | String _ s' => occurs needle s'
  end.

End JSString.

(** ** JavaScript values and plain objects *)

(** The values that parameters and header entries take.  A number is an
    integer here: a double with an integer value whose string form is its
    plain decimal form, as the request layer produces for [limit] and
    [offset]. *)
Inductive jsval : Type :=
| JUndefined
| JBool (b : bool)
| JNum (z : Z)
| JStr (s : string).

(** Element [i] of an array of strings, [undefined] past its end. *)
Definition arr_get (a : list string) (i : nat) : jsval :=
  match nth_error a i with
  | Some s => JStr s
  | None => JUndefined
  end.

Module JSObject.

(** A plain object, as the list of its own properties in the order
    [Object.keys] enumerates them. *)
Definition t : Type := list (string * jsval).

Definition is_digit (c : ascii) : bool :=
  let n := nat_of_ascii c in ((48 <=? n) && (n <=? 57))%nat.

Fixpoint digits_value (acc : N) (s : string) : option N :=
  match s with
  | "" => Some acc
  | String c s' =>
      if is_digit c
      then digits_value (acc * 10 + N.of_nat (nat_of_ascii c - 48)%nat)%N s'
      else None
  end.

(** A property name is an array index when it is the canonical decimal
    form of an integer below [2^32 - 1].  Such names are enumerated first,
    in ascending numeric order, whatever the insertion order. *)
Definition array_index (k : string) : option N :=
  match k with
  | "" => None
  | String "0" "" => Some 0%N
  | String "0" _ => None
  | _ =>
      match digits_value 0 k with
      | Some n => if (n <? 4294967295)%N then Some n else None
      | None => None
      end
  end.

Fixpoint get (k : string) (o : t) : option jsval :=
  match o with
  | [] => None
  | (k', v) :: rest => if String.eqb k' k then Some v else get k rest
  end.

Definition has (k : string) (o : t) : bool :=
  match get k o with Some _ => true | None => false end.

Definition keys (o : t) : list string := map fst o.

(** Assignment to a property that exists: the value changes, the position
    does not. *)
Fixpoint update (k : string) (v : jsval) (o : t) : t :=
  match o with
  | [] => []
  | (k', v') :: rest =>
      if String.eqb k' k then (k, v) :: rest else (k', v') :: update k v rest
  end.

(** A new array-index property goes before the first property that is not
    an array index or is a larger one. *)
Fixpoint insert_index (i : N) (k : string) (v : jsval) (o : t) : t :=
  match o with
  | [] => [(k, v)]
  | (k', v') :: rest =>
      match array_index k' with
      | Some j =>
          if (j <? i)%N then (k', v') :: insert_index i k v rest
          else (k, v) :: o
      | None => (k, v) :: o
      end
  end.

(** Defining the own property [k] of [o] with value [v], as an object
    literal and a spread do. *)
Definition define (k : string) (v : jsval) (o : t) : t :=
  if has k o then update k v o
  else match array_index k with
       | Some i => insert_index i k v o
       | None => o ++ [(k, v)]
       end.

(** [o[k] = v].  The name [__proto__] reaches the accessor inherited from
    [Object.prototype], which ignores a value that is neither an object
    nor [null]: no property is created. *)
Definition set (k : string) (v : jsval) (o : t) : t :=
  if String.eqb k "__proto__" then o else define k v o.

(** [delete o[k]] *)
Fixpoint delete (k : string) (o : t) : t :=
  match o with
  | [] => []
  | (k', v) :: rest =>
      if String.eqb k' k then delete k rest else (k', v) :: delete k rest
  end.

End JSObject.

(** Element [i] of an array of strings used as a property name: a missing
    element is [undefined], whose name is ["undefined"]. *)
Definition arr_key (a : list string) (i : nat) : string :=
  match nth_error a i with
  | Some s => s
  | None => "undefined"
  end.

(** ** The query catalog: [getExtraParameters] *)

Section Header.
Import JSString.

(** [e => e.startsWith('---')] *)
Definition has_marker (e : string) : bool := startsWith "---" e.

(** [e => e.indexOf(':') > 0] *)
Definition has_colon (e : string) : bool := (0 <? indexOf ":" e)%Z.

(** [e => e.substring(4).split(': ')] *)
Definition key_value (e : string) : list string := split ": " (substring 4 e).

(** [(acc, val) => { acc[val[0]] = val[1]; return acc; }] *)
Definition collect (acc : JSObject.t) (val : list string) : JSObject.t :=
  JSObject.set (arr_key val 0) (arr_get val 1) acc.

Definition getExtraParameters (query : string) : JSObject.t :=
  fold_left collect
    (map key_value
       (filter has_colon
          (filter has_marker (split LF query))))
    [].

(** The lines of a list that pass both filters, and the entry each one
    stands for. *)
Definition metadata_lines (lines : list string) : list string :=
  filter has_colon (filter has_marker lines).

Definition header_key (e : string) : string := arr_key (key_value e) 0.

Definition header_value (e : string) : jsval := arr_get (key_value e) 1.

Definition header_entry (e : string) : string * jsval :=
  (header_key e, header_value e).

(** A name that an assignment appends at the end of the enumeration
    order: neither an array index nor [__proto__]. *)
Definition ordinary_key (k : string) : bool :=
  negb (String.eqb k "__proto__") &&
  match JSObject.array_index k with Some _ => false | None => true end.

(** The value of the last of the lines that carries the key [k]. *)
Definition last_value (k : string) (lines : list string) : option jsval :=
  fold_left (fun found e =>
               if String.eqb (header_key e) k then Some (header_value e)
               else found)
            (metadata_lines lines) None.

(** A line of a template holds no line feed. *)
Definition is_line (e : string) : bool := negb (occurs LF e).

(** The metadata line [--- k: v] of the template file format. *)
Definition metadata_line (k v : string) : string := "--- " ++ k ++ ": " ++ v.

End Header.

(** ** Errors, effects and the outside world *)

(** A JavaScript [Error]: its message, for the errors of [fs] the [code]
    property (["ENOENT"] for a missing file) and, for the errors of the
    warehouse client, the [statusCode] property. *)
Record error : Type := Error {
  message : string;
  code : option string;
  statusCode : option Z
}.

(** [new Error(msg)] *)
Definition new_Error (msg : string) : error := Error msg None None.

(** The kind the specification calls NotFound. *)
Definition is_not_found (e : error) : bool :=
  match code e with
  | Some c => String.eqb c "ENOENT"
  | None => false
  end.

(** [parseInt(v, 10)].  [None] is [NaN]. *)
Module ParseInt.

Definition is_space (c : ascii) : bool :=
  let n := nat_of_ascii c in
  (((9 <=? n) && (n <=? 13)) || (n =? 32) || (n =? 160))%nat.

Fixpoint trim_start (s : string) : string :=
  match s with
  | String c s' => if is_space c then trim_start s' else s
  | "" => ""
  end.

(** The value of the longest prefix of decimal digits; [None] when the
    first code unit is not a digit. *)
Fixpoint digits_prefix (acc : option Z) (s : string) : option Z :=
  match s with
  | String c s' =>
      if JSObject.is_digit c then
        let d := Z.of_nat (nat_of_ascii c - 48)%nat in
        digits_prefix
          (Some (match acc with Some a => a * 10 + d | None => d end)%Z) s'
      else acc
  | "" => acc
  end.

(** [parseInt] returns a Number, a double.  The doubles it can return
    are whole numbers and the two infinities; they are written as
    integers: a finite double as its value, which is below [2^1024] in
    magnitude, and [Infinity] as [2^1024] itself, the value at which
    rounding overflows.  The sign of a zero is not kept. *)
Definition INFINITY : Z := 2 ^ 1024.
Definition MAX_SAFE_INTEGER : Z := 2 ^ 53 - 1.

(** The double nearest to an integer, ties to the even significand: the
    Number value for a mathematical integer.  Below [2^53] in magnitude
    every integer is a double; above, the 53 leading bits are kept and
    the rest rounds. *)
Definition round_double (n : Z) : Z :=
  let a := Z.abs n in
  if (a <? 2 ^ 53)%Z then n
  else
    let e := (Z.log2 a - 52)%Z in
    let q := Z.shiftr a e in
    let r := (a - Z.shiftl q e)%Z in
    let half := Z.shiftl 1 (e - 1) in
    let q' := if (half <? r)%Z || ((r =? half)%Z && Z.odd q)
              then (q + 1)%Z else q in
    let m := Z.shiftl q' e in
    (Z.sgn n * (if (INFINITY <=? m)%Z then INFINITY else m))%Z.

(** The number of decimal digits of a positive integer. *)
Fixpoint decimal_digits_upto (fuel : nat) (a : Z) : Z :=
  match fuel with
  | O => 0
  | S fuel' =>
      if (a <? 10)%Z then 1 else (1 + decimal_digits_upto fuel' (a / 10))%Z
  end.

Definition decimal_digits (a : Z) : Z := decimal_digits_upto 400 a.

(** The first digit of a [k]-digit decimal [s]; [s = 10^k] is [1]
    followed by zeros. *)
Definition leading (s k : Z) : Z :=
  if (s =? 10 ^ k)%Z then 1%Z else (s / 10 ^ (k - 1))%Z.

(** The first digit of [String(x)] for a finite double [x] of [nd]
    decimal digits, [x >= 1e21]: the string is in exponent form and its
    digits are the shortest decimal that converts back to [x], the one
    nearest to [x] if several do (Number::toString).  The decimals of [k]
    digits tried are the two multiples of [10^(nd-k)] around [x]; 17
    digits always suffice. *)
Fixpoint shortest_leading (fuel : nat) (k x nd : Z) : Z :=
  match fuel with
  | O => (x / 10 ^ (nd - 1))%Z
  | S fuel' =>
      let p := (10 ^ (nd - k))%Z in
      let lo := (x / p)%Z in
      let below := (round_double (lo * p) =? x)%Z in
      let above := (round_double ((lo + 1) * p) =? x)%Z in
      if below && above then
        let dl := (x - lo * p)%Z in
        let dh := ((lo + 1) * p - x)%Z in
        if (dl <? dh)%Z then leading lo k
        else if (dh <? dl)%Z then leading (lo + 1) k
        else if Z.even lo then leading lo k else leading (lo + 1) k
      else if below then leading lo k
      else if above then leading (lo + 1) k
      else shortest_leading fuel' (k + 1) x nd
  end.

(** [parseInt] of a string: leading white space is skipped, a sign is
    read, then the longest run of decimal digits; the result is the
    double nearest to their value, [NaN] ([None]) without a digit. *)
Definition of_string (s : string) : option Z :=
  match trim_start s with
  | String "-" s' => option_map (fun n => Z.opp (round_double n)) (digits_prefix None s')
  | String "+" s' => option_map round_double (digits_prefix None s')
  | s' => option_map round_double (digits_prefix None s')
  end.

(** The argument is converted to a string first: [undefined] and the
    booleans have no digits.  A number below [1e21] in magnitude is
    printed as a decimal that converts back to it, so it reads back as
    itself; from [1e21] on it is printed in exponent form, [d.ddde+NN],
    and [parseInt] stops after the first digit; [Infinity] has no
    digit. *)
Definition parseInt (v : jsval) : option Z :=
  match v with
  | JUndefined => None
  | JBool _ => None
  | JNum z =>
      let a := Z.abs z in
      if (INFINITY <=? a)%Z then None
      else if (a <? 10 ^ 21)%Z then Some z
      else Some (Z.sgn z * shortest_leading 17 1 a (decimal_digits a))%Z
  | JStr s => of_string s
  end.

End ParseInt.

(** The argument of [dataset.createQueryStream]; [maxResults] is the
    Number that [parseInt] returns, [None] for [NaN]. *)
Record query_request : Type := QueryRequest {
  query : string;
  maxResults : option Z;
  params : JSObject.t
}.

(** What the program asks of its collaborators, in the order it asks. *)
Inductive event : Type :=
| EvAuth (email key : string)
| EvDatasetGet (project name location : string)
| EvReadFile (path : string)
| EvCreateQueryStream (req : query_request).

(** A computation that calls collaborators and may throw. *)
Definition M (A : Type) : Type := list event * (error + A).

Definition ret {A} (a : A) : M A := ([], inr a).

Definition bind {A B} (m : M A) (k : A -> M B) : M B :=
  match m with
  | (tr, inl e) => (tr, inl e)
  | (tr, inr a) => let (tr', r) := k a in (tr ++ tr', r)
  end.

(** One call to a collaborator: the call is recorded, its answer is a value
    or a thrown error. *)
Definition call {A} (ev : event) (answer : error + A) : M A := ([ev], answer).

Notation "x <- m ;; k" := (bind m (fun x => k))
  (at level 61, m at next level, right associativity).

(** The warehouse calls among the events. *)
Definition is_warehouse_call (ev : event) : bool :=
  match ev with
  | EvReadFile _ => false
  | _ => true
  end.

Definition submitted (tr : list event) : list query_request :=
  flat_map (fun ev => match ev with
                      | EvCreateQueryStream req => [req]
                      | _ => []
                      end) tr.

(** What a query stream emits. *)
Inductive stream_event (row : Type) : Type :=
| Data (r : row)
| StreamError (e : error)
| End.
Arguments Data {row} r.
Arguments StreamError {row} e.
Arguments End {row}.

(** ** The executor: [loadQuery] and [execute] *)

Section Executor.

Context {credentials dataset row : Type}.

(** The collaborators: [./auth.js], the BigQuery client, Node's [path] and
    [fs] modules and the [json-size] package. *)
Record World : Type := {
  dirname : string;
  auth : string -> string -> error + credentials;
  dataset_get : string -> credentials -> string -> string -> error + dataset;
  path_resolve : list string -> string;
  readFileSync : string -> error + string;
  createQueryStream : dataset -> query_request -> list (stream_event row);
  size : list row -> Z
}.

Variable w : World.

(** The file [loadQuery] reads. *)
Definition query_path (query : string) (dir : option string) : string :=
  let base := match dir with
              | Some d => if String.eqb d "" then dirname w else d
              | None => dirname w
              end in
  path_resolve w
    [base; "queries"; (JSString.strip_leading_slash query ++ ".sql")%string].

Definition loadQuery (query : string) (dir : option string) : M string :=
  call (EvReadFile (query_path query dir))
       (readFileSync w (query_path query dir)).

(** What [execute] resolves with. *)
Record result : Type := Result { truncated : bool; results : list row }.

(** The state of a promise. *)
Inductive promise : Type :=
| Pending
| Resolved (r : result)
| Rejected (e : error).

(** The variables the stream handlers close over, and the promise. *)
Record handlers : Type := Handlers {
  h_results : list row;
  h_avgsize : Q;
  h_promise : promise
}.

(** [1024 * 1024 * 0.9].  The numbers of [spaceleft] are doubles in the
    program and rationals here.  The two agree on the test: with [s] the
    sampled size and [n] the number of rows, the exact product [s * n / 10]
    is a multiple of [0.1], so it is either above [943718.4] by [0.1] at
    least, far more than the rounding of the double product, or at most
    [943718.4]; and it equals [943718.4] only when [n] is a power of two
    times 1, 3 or 9, where the double product is at most the double
    budget as well. *)
Definition budget : Q := (1024 * 1024 * (9 # 10))%Q.

(** [spaceleft]: the new value of [avgsize] and the answer. *)
Definition spaceleft (h : handlers) : Q * bool :=
  let n := List.length (h_results h) in
  let avgsize :=
    if (n =? 10)%nat
    then (inject_Z (size w (h_results h)) / inject_Z (Z.of_nat n))%Q
    else h_avgsize h in
  (avgsize, Qle_bool (avgsize * inject_Z (Z.of_nat n))%Q budget).

(** [resolve] and [reject] settle a pending promise and do nothing to a
    settled one. *)
Definition settle (p : promise) (outcome : promise) : promise :=
  match p with
  | Pending => outcome
  | _ => p
  end.

Definition on_data (r : row) (h : handlers) : handlers :=
  let (avgsize, ok) := spaceleft h in
  if ok
  then Handlers (h_results h ++ [r]) avgsize (h_promise h)
  else Handlers (h_results h) avgsize
         (settle (h_promise h) (Resolved (Result true (h_results h)))).

Definition on_error (e : error) (h : handlers) : handlers :=
  Handlers (h_results h) (h_avgsize h) (settle (h_promise h) (Rejected e)).

Definition on_end (h : handlers) : handlers :=
  Handlers (h_results h) (h_avgsize h)
    (settle (h_promise h) (Resolved (Result false (h_results h)))).

Definition handle (h : handlers) (ev : stream_event row) : handlers :=
  match ev with
  | Data r => on_data r h
  | StreamError e => on_error e h
  | End => on_end h
  end.

(** [const results = []; let avgsize = 0;] *)
Definition initial : handlers := Handlers [] 0%Q Pending.

(** The promise after the stream has emitted [evs]. *)
Definition consume (evs : list (stream_event row)) : handlers :=
  fold_left handle evs initial.

(** The default value of the [params] argument. *)
Definition default_params : JSObject.t := [("limit", JNum 100)].

Definition service_name (service : option string) : string :=
  ("helix_logging_"
     ++ match service with Some s => s | None => "undefined" end)%string.

Definition get_or_undefined (k : string) (o : JSObject.t) : jsval :=
  match JSObject.get k o with Some v => v | None => JUndefined end.

(** The part of [execute] inside [try] and before [return]: the two
    awaited calls. *)
Definition open_dataset (email key project : string) (service : option string)
  : M dataset :=
  cred <- call (EvAuth email key) (auth w email key) ;;
  call (EvDatasetGet project (service_name service) "US")
       (dataset_get w project cred (service_name service) "US").

(** The argument of [createQueryStream], its fields evaluated in order
    after the template has been read. *)
Definition request (text : string) (ps : JSObject.t) : query_request :=
  QueryRequest text (ParseInt.parseInt (get_or_undefined "limit" ps)) ps.

(** The executor of [new Promise]: the template is loaded, then the stream
    is created. *)
Definition start_stream (ds : dataset) (name : string) (ps : JSObject.t)
  : M (list (stream_event row)) :=
  text <- loadQuery name None ;;
  call (EvCreateQueryStream (request text ps))
       (inr (createQueryStream w ds (request text ps))).

(** The [params] argument with its default. *)
Definition effective_params (params_arg : option JSObject.t) : JSObject.t :=
  match params_arg with Some p => p | None => default_params end.

(** The error [execute] throws from its [catch] clause. *)
Definition wrapped (e : error) : error :=
  new_Error ("Unable to execute Google Query: " ++ message e).

(** [execute]: the calls made and the promise returned.  An error of the
    awaited calls is caught and wrapped; an error thrown by the promise's
    executor rejects the promise as it is, and so does a stream error. *)
Definition execute (email key project name : string)
    (service : option string) (params_arg : option JSObject.t)
  : list event * promise :=
  match open_dataset email key project service with
  | (tr, inl e) =>
      (tr, Rejected (wrapped e))
  | (tr, inr ds) =>
      match start_stream ds name (effective_params params_arg) with
      | (tr', inl e) => (tr ++ tr', Rejected e)
      | (tr', inr evs) => (tr ++ tr', h_promise (consume evs))
      end
  end.

(** [execute] gets as far as the stream, and the stream emits [evs]. *)
Definition streams (email key project name : string)
    (service : option string) (params_arg : option JSObject.t)
    (evs : list (stream_event row)) : Prop :=
  exists tr ds text,
    open_dataset email key project service = (tr, inr ds) /\
    readFileSync w (query_path name None) = inr text /\
    createQueryStream w ds (request text (effective_params params_arg)) = evs.

(** A stream that emits [rows] and ends. *)
Definition row_stream (rows : list row) : list (stream_event row) :=
  map Data rows ++ [End].

(** The handlers after the [data] events of [rows]. *)
Definition after_rows (rows : list row) : handlers :=
  consume (map Data rows).

(** The average serialized row size, as sampled when ten rows are held. *)
Definition estimate (rows : list row) : Q :=
  (inject_Z (size w (firstn 10 rows)) / inject_Z (Z.of_nat 10))%Q.

(** [avgsize * results.length > 1024 * 1024 * 0.9] with [n] rows held. *)
Definition exceeds_budget (rows : list row) (n : nat) : Prop :=
  (budget < estimate rows * inject_Z (Z.of_nat n))%Q.

Definition crosses (rows : list row) (n : nat) : bool :=
  negb (Qle_bool (estimate rows * inject_Z (Z.of_nat n))%Q budget).

End Executor.

(** ** The action: [run] and [runExec]

    [runExec] calls the [execute] of the deployed [sendquery.js], which
    takes the cleaned request parameters and resolves with an envelope
    that carries [requestParams]; that function, [queryInfo] and the
    helpers of [util.js] are collaborators here. *)

Module Action.

(** What [execute] resolves with. *)
Record envelope (rows meta : Type) : Type := Envelope {
  results : rows;
  truncated : bool;
  headers : JSObject.t;
  description : meta;
  requestParams : JSObject.t;
  responseDetails : meta;
  responseMetadata : meta
}.
Arguments Envelope {rows meta}.
Arguments results {rows meta}.
Arguments truncated {rows meta}.
Arguments headers {rows meta}.
Arguments description {rows meta}.
Arguments requestParams {rows meta}.
Arguments responseDetails {rows meta}.
Arguments responseMetadata {rows meta}.

(** [new Response(body, { status, headers })] *)
Record response : Type := Response {
  body : string;
  status : Z;
  response_headers : JSObject.t
}.

(** The calls [runExec] makes, with their arguments as they are when the
    call is made. *)
Inductive call_event : Type :=
| CallQueryInfo (pathname : string) (params : JSObject.t)
| CallExecute (email key project : jsval) (query : string)
    (params : JSObject.t)
| CallPut (path content contentType : string).

(** What [storeResult] reads of the invocation context: the invoker, the
    site and organisation of [context.rso] when there is one, and the
    clock, [Date.now()] in decimal. *)
Record context : Type := InvocationContext {
  invoker : jsval;
  rso : option (string * string);
  now : string
}.

Definition STORED_QUERIES : list string := ["rum-pageviews"].

Definition is_line_terminator (c : ascii) : bool :=
  let n := nat_of_ascii c in ((n =? 10) || (n =? 13))%nat.

Fixpoint has_line_terminator (s : string) : bool :=
  match s with
  | "" => false
  | String c s' => is_line_terminator c || has_line_terminator s'
  end.

(** [pathname.replace(/\..*$/, '')]: the text from the first dot that is
    followed by no line terminator is dropped. *)
Fixpoint strip_extension (s : string) : string :=
  match s with
  | "" => ""
  | String c s' =>
      if Ascii.eqb c "." && negb (has_line_terminator s') then ""
      else String c (strip_extension s')
  end.

(** [v || fallback] picks [fallback] for a falsy [v]. *)
Definition truthy (v : jsval) : bool :=
  match v with
  | JUndefined => false
  | JBool b => b
  | JNum z => negb (z =? 0)%Z
  | JStr s => negb (String.eqb s "")
  end.

Section RunExec.

Context {rows meta : Type}.

(** The collaborators of the entry point.  [queryInfo] and [execute] are
    asynchronous: what they answer is a resolved or a rejected promise.
    [bucket_put] is the [put] of the storage bucket.  [chart_location]
    stands for the [quickchart.io] URL built from the chart and the request
    parameters. *)
Record Services : Type := {
  execute : jsval -> jsval -> jsval -> string -> JSObject.t
            -> error + envelope rows meta;
  queryInfo : string -> JSObject.t -> error + response;
  cleanRequestParams : JSObject.t -> JSObject.t;
  csvify : rows -> string;
  chartify : rows -> meta -> JSObject.t -> string;
  chart_location : string -> JSObject.t -> string;
  sshonify : rows -> meta -> JSObject.t -> meta -> meta -> bool -> string;
  bucket_put : string -> string -> string -> error + unit;
  cleanupHeaderValue : string -> string
}.

Variable sv : Services.

Definition param (k : string) (o : JSObject.t) : jsval :=
  match JSObject.get k o with Some v => v | None => JUndefined end.

(** The [catch] clause of [runExec]. *)
Definition error_response (e : error) : response :=
  Response (message e)
           (match statusCode e with
            | Some c => if (c =? 0)%Z then 500%Z else c
            | None => 500%Z
            end)
           [("x-error", JStr (cleanupHeaderValue sv (message e)))].

(** [{ 'content-type': t, ...headers }] *)
Definition with_content_type (t : string) (hs : JSObject.t) : JSObject.t :=
  fold_left (fun acc kv => JSObject.define (fst kv) (snd kv) acc) hs
            [("content-type", JStr t)].

(** The copy of the request parameters that is rendered into the
    response: [delete requestParams.domainkey]. *)
Definition redact (requestParams : JSObject.t) : JSObject.t :=
  JSObject.delete "domainkey" requestParams.

(** [storeResult]: the result of a stored query asked for by the admin
    service is written to the bucket; a failed write is logged and
    answered with [false]. *)
Definition storeResult (query result : string) (ctx : context)
  : list call_event * bool :=
  if negb (existsb (String.eqb query) STORED_QUERIES)
     || negb match invoker ctx with
             | JStr s => String.eqb s "helix3/admin"
             | _ => false
             end
  then ([], false)
  else
    let (site, org) := match rso ctx with
                       | Some so => so
                       | None => ("tmp", "tmp")
                       end in
    let path := (org ++ "/rum/" ++ site ++ "/" ++ query ++ "/"
                     ++ now ctx ++ ".json")%string in
    ([CallPut path result "application/json"],
     match bucket_put sv path result "application/json" with
     | inr _ => true
     | inl _ => false
     end).

(** [runExec]: the calls made, in order, and the promise returned.  The
    promise of [queryInfo] is returned as it is, so its rejection is not
    caught; an error of [execute] is turned into a response.  The entry
    [domainkey] is deleted once [execute] has resolved, so the deletion
    cannot change what [execute] was called with, whether or not the two
    maps are one object. *)
Definition runExec (params : JSObject.t) (pathname : string) (ctx : context)
  : list call_event * (error + response) :=
  if JSString.endsWith ".txt" pathname then
    ([CallQueryInfo pathname params], queryInfo sv pathname params)
  else
    let query := strip_extension pathname in
    let email := param "GOOGLE_CLIENT_EMAIL" params in
    let key := param "GOOGLE_PRIVATE_KEY" params in
    let project := param "GOOGLE_PROJECT_ID" params in
    let cleaned := cleanRequestParams sv params in
    let called := CallExecute email key project query cleaned in
    match execute sv email key project query cleaned with
    | inl e => ([called], inr (error_response e))
    | inr env =>
        if JSString.endsWith ".csv" pathname then
          ([called],
           inr (Response (csvify sv (results env)) 200
                  (with_content_type "text/csv" (headers env))))
        else if JSString.endsWith ".chart" pathname then
          let chartjson :=
            chartify sv (results env) (description env) params in
          ([called],
           inr (Response chartjson 307
                  (JSObject.define "location"
                     (JStr (chart_location sv chartjson params))
                     (with_content_type "text/plain" (headers env)))))
        else
          let echoed := redact (requestParams env) in
          let result :=
            sshonify sv (results env) (description env) echoed
                     (responseDetails env) (responseMetadata env)
                     (truncated env) in
          (called :: fst (storeResult query result ctx),
           inr (Response result 200
                  (with_content_type "application/json" (headers env))))
    end.

(** The parameters [execute] was called with. *)
Definition executed_with (tr : list call_event) : list JSObject.t :=
  flat_map (fun ev => match ev with
                      | CallExecute _ _ _ _ ps => [ps]
                      | _ => []
                      end) tr.

(** What was written to the bucket. *)
Definition stored (tr : list call_event) : list string :=
  flat_map (fun ev => match ev with
                      | CallPut _ content _ => [content]
                      | _ => []
                      end) tr.

(** [run] sets [domainkey] from the last word of the authorization
    header, else from the request, else to ['secret'], then the three
    credentials from the environment. *)
Definition last_word (s : string) : string :=
  List.last (JSString.split " " s) "".

Definition resolve_domainkey (authorization : option string)
    (data : JSObject.t) : jsval :=
  match authorization with
  | Some a => JStr (last_word a)
  | None => if truthy (param "domainkey" data)
            then param "domainkey" data else JStr "secret"
  end.

Definition run_params (authorization : option string)
    (email key project : jsval) (data : JSObject.t) : JSObject.t :=
  JSObject.set "GOOGLE_PROJECT_ID" project
    (JSObject.set "GOOGLE_PRIVATE_KEY" key
       (JSObject.set "GOOGLE_CLIENT_EMAIL" email
          (JSObject.set "domainkey" (resolve_domainkey authorization data)
             data))).

End RunExec.

End Action.

(** ** The [execute] that the action imports

    [index.js] imports [execute] and [queryInfo] from [./sendquery.js];
    the [sendquery.js] modelled above is an earlier, CommonJS version
    that exports no [queryInfo] and resolves with [truncated] and
    [results] alone.  The [execute] that [runExec] calls, whose envelope
    it takes apart, is therefore described from the specification. *)

Module Deployed.
Section Execute.

Context {rows meta : Type}.

(** Modelled from the spec: the two stages of the deployed pipeline that
    are left open, the binder (4.2, with the loading
    and parsing of the template before it), which gives the description
    and the bound parameter set of a query for the map of the caller, and
    the warehouse (4.3, 4.4), which runs the statements of the query with
    a parameter map and answers the results, the truncation flag, the
    headers and the details of the response.  Either may fail.  Their
    code is missing from the sources. *)
Record Stages : Type := {
  bind : string -> JSObject.t -> error + (meta * JSObject.t);
  run_queries : string -> JSObject.t
                -> error + (rows * bool * JSObject.t * meta * meta)
}.

Variable st : Stages.

(** Modelled from the spec: the [execute] of the deployed [sendquery.js],
    which [runExec] calls and which is missing from the sources.  The
    orchestrator binds the parameters and then executes the statements of
    the template (4.5: BIND_PARAMS, EXECUTE_COUNT, EXECUTE_MAIN,
    ASSEMBLE_ENVELOPE; a failing stage ends the run); the streaming query
    is opened "using the bound parameter map" (4.3) and the metadata
    statement runs "with the same bound parameters" (4.4); the envelope
    carries the bound parameter set as [requestParams] (3), which
    [runExec] redacts afterwards.  The first component lists the parameter
    maps the warehouse was run with. *)
Definition execute (query : string) (caller : JSObject.t)
  : list JSObject.t * (error + Action.envelope rows meta) :=
  match bind st query caller with
  | inl e => ([], inl e)
  | inr (description, bound) =>
      ([bound],
       match run_queries st query bound with
       | inl e => inl e
       | inr (results, truncated, headers, details, metadata) =>
           inr (Action.Envelope results truncated headers description bound
                                details metadata)
       end)
  end.

(** The collaborators of [runExec] with this [execute]. *)
Definition services (sv : @Action.Services rows meta)
  : @Action.Services rows meta :=
  {| Action.execute := fun _ _ _ query caller => snd (execute query caller);
     Action.queryInfo := Action.queryInfo sv;
     Action.cleanRequestParams := Action.cleanRequestParams sv;
     Action.csvify := Action.csvify sv;
     Action.chartify := Action.chartify sv;
     Action.chart_location := Action.chart_location sv;
     Action.sshonify := Action.sshonify sv;
     Action.bucket_put := Action.bucket_put sv;
     Action.cleanupHeaderValue := Action.cleanupHeaderValue sv |}.

End Execute.
End Deployed.

(** ** Sample collaborators and templates, for the examples *)

Module Sample.

(** The error of [fs.readFileSync] for a missing file. *)
Definition enoent (path : string) : error :=
  Error ("ENOENT: no such file or directory, open '" ++ path ++ "'")
        (Some "ENOENT") None.

Fixpoint file_lookup (path : string) (files : list (string * string))
  : option string :=
  match files with
  | [] => None
  | (p, text) :: rest =>
      if String.eqb p path then Some text else file_lookup path rest
  end.

(** A row is given by the byte length of its JSON text; an array of rows
    adds the brackets and the commas. *)
Definition json_size (rs : list Z) : Z :=
  (2 + fold_right Z.add 0 rs + Z.of_nat (pred (List.length rs)))%Z.

(** A world with the given files, in which the credentials are accepted or
    not and every query streams [rows]. *)
Definition world (credentials_ok : bool) (files : list (string * string))
    (rows : list Z) : @World unit unit Z :=
  {| dirname := "/app/src";
     auth := fun _ _ =>
       if credentials_ok then inr tt
       else inl (new_Error "invalid_grant");
     dataset_get := fun _ _ _ _ => inr tt;
     path_resolve := JSString.join "/";
     readFileSync := fun path =>
       match file_lookup path files with
       | Some text => inr text
       | None => inl (enoent path)
       end;
     createQueryStream := fun _ _ => row_stream rows;
     size := json_size |}.

(** A template with three declared parameters. *)
Definition pageviews_sql : string :=
  JSString.join JSString.LF
    ["--- url: -"; "--- limit: 100"; "--- offset: 0";
     "SELECT url, views FROM pageviews(@url)";
     "LIMIT @limit OFFSET @offset"].

(** [queries/rum-attribution.sql], its statements shortened: the header,
    the [# hlx:metadata] sentinel line with the count query, the main
    query and the descriptions of the result columns. *)
Definition attribution_sql : string :=
  JSString.join JSString.LF
    ["--- description: Which sources and targets for a given checkpoint have the highest conversion rates within a given attribution window?";
     "--- Authorization: none";
     "--- Access-Control-Allow-Origin: *";
     "--- url: -";
     "--- limit: 100";
     "--- offset: 0";
     "--- startdate: 2020-01-01";
     "--- enddate: 2021-01-01";
     "--- timezone: UTC";
     "--- conversioncheckpoint: click";
     "--- sources: -";
     "--- targets: -";
     "--- checkpoint: viewmedia";
     "--- within: 10";
     "--- attribute: target";
     "--- domainkey: secret";
     "";
     "WITH attribution AS (";
     "  SELECT attributable, COUNT(DISTINCT id) AS sessions";
     "  FROM attributable_sessions";
     "  GROUP BY attributable";
     ")";
     "";
     "# hlx:metadata";
     "SELECT COUNT(*) AS total_rows";
     "FROM attribution;";
     "";
     "";
     "SELECT";
     "  attributable,";
     "  sessions";
     "FROM attribution";
     "ORDER BY conversions DESC";
     "WHERE -- noqa";
     "  result_position > CAST(@offset AS INT64) ";
     "  AND result_position <= CAST(@offset AS INT64) + CAST(@limit AS INT64);";
     "--- attributable: the source or target to attribute the conversion to";
     "--- sessions: the total number of sessions that had the action of interest";
     ""].

Definition files : list (string * string) :=
  [("/app/src/queries/rum-pageviews.sql", pageviews_sql);
   ("/app/src/queries/rum-attribution.sql", attribution_sql)].

(** Thirteen rows of 90000 bytes: ten of them take 900011 bytes, an
    estimate of 90001.1 per row.  With ten rows held the product is
    within the budget of 943718.4, with eleven rows held it is not. *)
Definition thirteen_rows : list Z := repeat 90000%Z 13.

(** Collaborators of the entry point: an [execute] that resolves with the
    parameters it was given as [requestParams], a [cleanRequestParams] that
    drops the credentials, and a renderer that lists the names of the
    request parameters. *)
Definition services : @Action.Services (list Z) unit :=
  {| Action.execute := fun _ _ _ _ ps =>
       inr (Action.Envelope [1; 2]%Z false [] tt ps tt tt);
     Action.queryInfo := fun _ _ => inr (Action.Response "" 200 []);
     Action.cleanRequestParams :=
       filter (fun kv => negb (JSString.startsWith "GOOGLE_" (fst kv)));
     Action.csvify := fun _ => "";
     Action.chartify := fun _ _ _ => "";
     Action.chart_location := fun _ _ => "https://quickchart.io/chart";
     Action.sshonify := fun _ _ rp _ _ _ =>
       JSString.join "," (JSObject.keys rp);
     Action.bucket_put := fun _ _ _ => inr tt;
     Action.cleanupHeaderValue := fun m => m |}.

(** An invocation by the admin service. *)
Definition admin_context : Action.context :=
  Action.InvocationContext (JStr "helix3/admin") (Some ("site", "org"))
                           "1700000000000".

(** The request data of a call [?url=example.com&limit=10] that carries
    its domain key in the request. *)
Definition request_data : JSObject.t :=
  [("url", JStr "example.com"); ("limit", JNum 10);
   ("domainkey", JStr "s3cr3t")].

(** The parameters a template declares, with their defaults, and stages
    that bind each of them to the value of the caller, else to its
    default, and answer two rows. *)
Definition declared : JSObject.t :=
  [("url", JStr "-"); ("limit", JStr "100"); ("offset", JStr "0");
   ("domainkey", JStr "secret")].

Definition stages : @Deployed.Stages (list Z) unit :=
  {| Deployed.bind := fun _ caller =>
       inr (tt, map (fun kv => (fst kv,
                                match JSObject.get (fst kv) caller with
                                | Some v => v
                                | None => snd kv
                                end)) declared);
     Deployed.run_queries := fun _ _ => inr ([1; 2]%Z, false, [], tt, tt) |}.

End Sample.

(** ** Further definitions, for the properties beyond the claims *)

(** A key or a value as the file format writes it: on one line and free
    of the delimiter [': ']. *)
Definition plain (s : string) : bool :=
  negb (JSString.occurs ": " s) && is_line s.

(** The header of a template file, one [--- k: v] line per entry. *)
Definition render_header (entries : list (string * string)) : list string :=
  map (fun kv => metadata_line (fst kv) (snd kv)) entries.

(** The rows among the events of a stream. *)
Definition data_rows {row : Type} (evs : list (stream_event row)) : list row :=
  flat_map (fun ev => match ev with Data r => [r] | _ => [] end) evs.

(** What a settled promise goes back to in the stream: a result holds the
    first rows of the stream, an untruncated one was resolved by [end] and
    a truncated one by a row beyond the tenth, a rejection carries an
    error of the stream, and a pending promise has seen neither [end] nor
    an error. *)
Definition explained {row : Type} (evs : list (stream_event row))
    (p : @promise row) : Prop :=
  match p with
  | Resolved r =>
      (exists n, results r = firstn n (data_rows evs)) /\
      (truncated r = false -> In End evs) /\
      (truncated r = true -> (10 < List.length (data_rows evs))%nat)
  | Rejected e => In (StreamError e) evs
  | Pending => ~ In End evs /\ forall e, ~ In (StreamError e) evs
  end.

(** A header name without upper-case letters, the form in which the
    headers of a response keep names: among such names, two entries of a
    [headers] object name the same header only if they have the same
    name. *)
Fixpoint lower_case (s : string) : bool :=
  match s with
  | "" => true
  | String c s' =>
      negb ((65 <=? nat_of_ascii c) && (nat_of_ascii c <=? 90))%nat
      && lower_case s'
  end.

(** Further sample worlds: one whose every query stream emits the given
    events, and one whose dataset lookup is refused with a status code. *)
Module MoreSamples.

Definition streaming (evs : list (stream_event Z)) : @World unit unit Z :=
  {| dirname := "/app/src";
     auth := fun _ _ => inr tt;
     dataset_get := fun _ _ _ _ => inr tt;
     path_resolve := JSString.join "/";
     readFileSync := fun path =>
       match Sample.file_lookup path Sample.files with
       | Some text => inr text
       | None => inl (Sample.enoent path)
       end;
     createQueryStream := fun _ _ => evs;
     size := Sample.json_size |}.

Definition dataset_missing : @World unit unit Z :=
  {| dirname := "/app/src";
     auth := fun _ _ => inr tt;
     dataset_get := fun _ _ _ _ =>
       inl (Error "Not found: Dataset helix:helix_logging_prod"
                  None (Some 404%Z));
     path_resolve := JSString.join "/";
     readFileSync := fun path => inl (Sample.enoent path);
     createQueryStream := fun _ _ => [];
     size := Sample.json_size |}.

End MoreSamples.

(** The query string of the chart redirect in [runExec]: the
    [URLSearchParams] it builds, as the list of its name/value pairs. *)
Module Chart.


(** The string a value is converted to when it is stored. *)
Definition to_string (v : jsval) : string :=
  match v with
  | JUndefined => "undefined"
  | JBool true => "true"
  | JBool false => "false"
  | JNum z => NilZero.string_of_int (Z.to_int z)
  | JStr s => s
  end.




End Chart.

(** * Properties *)

(** ** Strings *)

Module JSStringFacts.
Import JSString.

Lemma prefix_cons (a b : ascii) (p s : string) :
  prefix (String a p) (String b s) = Ascii.eqb a b && prefix p s.
Proof.
  simpl. destruct (ascii_dec a b) as [->|Hne].
  - now rewrite Ascii.eqb_refl.
  - apply Ascii.eqb_neq in Hne. now rewrite Hne.
Qed.

Lemma prefix_nil (s : string) : prefix "" s = true.
Proof. now destruct s. Qed.

Lemma prefix_self_app (p s : string) : prefix p (p ++ s) = true.
Proof.
  induction p as [|a p IH]; [now destruct s|].
  cbn [append]. rewrite prefix_cons, Ascii.eqb_refl. exact IH.
Qed.

Lemma split_from_nonempty (sep : string) (k : nat) (s : string) :
  split_from sep k s <> [].
Proof.
  revert k. induction s as [|c s IH]; intros k; [easy|].
  cbn [split_from]. destruct k as [|k]; [|apply IH].
  destruct (prefix sep (String c s)); [easy|].
  unfold push_front. destruct (split_from sep 0 s); easy.
Qed.

Lemma push_front_app (c : ascii) (l1 l2 : list string) :
  l1 <> [] -> push_front c (l1 ++ l2) = push_front c l1 ++ l2.
Proof. destruct l1; [congruence | reflexivity]. Qed.

Lemma split_cons (sep : string) (c : ascii) (s : string) :
  split sep (String c s) =
  if prefix sep (String c s)
  then "" :: split_from sep (length sep - 1) s
  else push_front c (split sep s).
Proof. reflexivity. Qed.

(** *** The separator ['\n'] *)

Lemma split_LF_cons (c : ascii) (s : string) :
  split LF (String c s) =
  if Ascii.eqb (ascii_of_nat 10) c then "" :: split LF s
  else push_front c (split LF s).
Proof.
  rewrite split_cons. unfold LF at 1.
  rewrite prefix_cons, prefix_nil, andb_true_r. reflexivity.
Qed.

Lemma split_LF_app (a b : string) :
  split LF (a ++ LF ++ b) = split LF a ++ split LF b.
Proof.
  induction a as [|c a IH].
  - change ("" ++ LF ++ b)%string with (String (ascii_of_nat 10) b).
    now rewrite split_LF_cons, Ascii.eqb_refl.
  - cbn [append]. rewrite !split_LF_cons, IH.
    destruct (Ascii.eqb (ascii_of_nat 10) c); [reflexivity|].
    apply push_front_app, split_from_nonempty.
Qed.

Lemma occurs_LF_cons (c : ascii) (s : string) :
  occurs LF (String c s) = Ascii.eqb (ascii_of_nat 10) c || occurs LF s.
Proof.
  cbn [occurs]. unfold LF at 1.
  now rewrite prefix_cons, prefix_nil, andb_true_r.
Qed.

Lemma occurs_LF_app (a b : string) :
  occurs LF (a ++ b) = occurs LF a || occurs LF b.
Proof.
  induction a as [|c a IH].
  - simpl. destruct b; reflexivity.
  - cbn [append]. rewrite !occurs_LF_cons, IH. apply orb_assoc.
Qed.

Lemma split_LF_line (s : string) : occurs LF s = false -> split LF s = [s].
Proof.
  induction s as [|c s IH]; intros H; [reflexivity|].
  rewrite occurs_LF_cons in H. apply orb_false_iff in H as [Hc Hs].
  rewrite split_LF_cons, Hc, (IH Hs). reflexivity.
Qed.

(** The lines of a joined text are the lines of its parts. *)
Lemma split_LF_join (l : list string) :
  l <> [] -> split LF (join LF l) = flat_map (split LF) l.
Proof.
  induction l as [|x l IH]; [congruence|]. intros _.
  destruct l as [|y l].
  - simpl. now rewrite app_nil_r.
  - change (join LF (x :: y :: l)) with (x ++ LF ++ join LF (y :: l))%string.
    rewrite split_LF_app, IH by discriminate. reflexivity.
Qed.

Lemma flat_map_split_lines (l : list string) :
  forallb (fun e => negb (occurs LF e)) l = true ->
  flat_map (split LF) l = l.
Proof.
  induction l as [|x l IH]; intros H; [reflexivity|].
  simpl in H. apply andb_true_iff in H as [Hx Hl].
  apply negb_true_iff in Hx.
  simpl. rewrite (split_LF_line _ Hx), (IH Hl). reflexivity.
Qed.

(** *** The separator [': '] *)

Lemma occurs_cons (needle : string) (c : ascii) (s : string) :
  occurs needle (String c s) = prefix needle (String c s) || occurs needle s.
Proof. reflexivity. Qed.

Lemma split_colon_space_first (a b : string) :
  occurs ": " a = false ->
  split ": " (a ++ ": " ++ b) = a :: split ": " b.
Proof.
  induction a as [|c a IH]; intros H.
  - change ("" ++ ": " ++ b)%string with (String ":" (String " " b)).
    rewrite split_cons, !prefix_cons, prefix_nil. reflexivity.
  - rewrite occurs_cons in H. apply orb_false_iff in H as [Hp Ha].
    change (String c a ++ ": " ++ b)%string with (String c (a ++ ": " ++ b)).
    assert (Hp' : prefix ": " (String c (a ++ ": " ++ b)) = false).
    { rewrite prefix_cons in *. destruct (Ascii.eqb ":" c); [|reflexivity].
      rewrite andb_true_l in *. destruct a as [|d a]; [reflexivity|].
      change (String d a ++ ": " ++ b)%string
        with (String d (a ++ ": " ++ b)).
      rewrite prefix_cons, prefix_nil in *. exact Hp. }
    rewrite split_cons, Hp', (IH Ha). reflexivity.
Qed.

Lemma split_colon_space_none (s : string) :
  occurs ": " s = false -> split ": " s = [s].
Proof.
  induction s as [|c s IH]; intros H; [reflexivity|].
  rewrite occurs_cons in H. apply orb_false_iff in H as [Hp Hs].
  rewrite split_cons, Hp, (IH Hs). reflexivity.
Qed.

(** *** [indexOf] *)

Lemma indexOf_from_found (needle s : string) (i : Z) :
  occurs needle s = true -> (i <= indexOf_from needle s i)%Z.
Proof.
  revert i. induction s as [|c s IH]; intros i H.
  - cbn [occurs indexOf_from] in *. destruct (prefix needle ""); [lia|].
    discriminate.
  - rewrite occurs_cons in H. cbn [indexOf_from].
    destruct (prefix needle (String c s)); [lia|].
    simpl in H. specialize (IH (i + 1)%Z H). lia.
Qed.

Lemma indexOf_from_missing (needle s : string) (i : Z) :
  occurs needle s = false -> indexOf_from needle s i = (-1)%Z.
Proof.
  revert i. induction s as [|c s IH]; intros i H.
  - cbn [occurs indexOf_from] in *.
    destruct (prefix needle ""); [discriminate | reflexivity].
  - rewrite occurs_cons in H. apply orb_false_iff in H as [Hp Hs].
    cbn [indexOf_from]. rewrite Hp. now apply IH.
Qed.

Lemma occurs_app_r (needle a b : string) :
  occurs needle b = true -> occurs needle (a ++ b) = true.
Proof.
  intros H. induction a as [|c a IH]; [exact H|].
  cbn [append]. rewrite occurs_cons, IH. apply orb_true_r.
Qed.

Lemma occurs_self_app (needle s : string) : occurs needle (needle ++ s) = true.
Proof.
  destruct needle as [|c n].
  - destruct s; reflexivity.
  - cbn [append]. rewrite occurs_cons.
    change (String c (n ++ s)) with (String c n ++ s)%string.
    now rewrite prefix_self_app.
Qed.

End JSStringFacts.

(** ** Objects *)

Module JSObjectFacts.
Import JSObject.

Lemma has_false_iff (k : string) (o : t) : has k o = false <-> get k o = None.
Proof. unfold has. destruct (get k o); split; congruence. Qed.

Lemma get_none_iff (k : string) (o : t) : get k o = None <-> ~ In k (keys o).
Proof.
  induction o as [|[k' v] o IH]; simpl.
  - tauto.
  - destruct (String.eqb_spec k' k) as [->|Hne].
    + split; [discriminate | tauto].
    + rewrite IH. tauto.
Qed.

Lemma get_app_fresh (k : string) (v : jsval) (o : t) :
  get k o = None -> get k (o ++ [(k, v)]) = Some v.
Proof.
  induction o as [|[k' v'] o IH]; simpl.
  - now rewrite String.eqb_refl.
  - destruct (String.eqb k' k); [discriminate | exact IH].
Qed.

Lemma get_update_same (k : string) (v : jsval) (o : t) :
  get k o <> None -> get k (update k v o) = Some v.
Proof.
  induction o as [|[k' v'] o IH]; simpl; [congruence|].
  destruct (String.eqb k' k) eqn:E; simpl.
  - now rewrite String.eqb_refl.
  - now rewrite E.
Qed.

Lemma get_insert_index_same (i : N) (k : string) (v : jsval) (o : t) :
  get k o = None -> get k (insert_index i k v o) = Some v.
Proof.
  induction o as [|[k' v'] o IH]; simpl.
  - now rewrite String.eqb_refl.
  - destruct (String.eqb k' k) eqn:E; [discriminate|]. intros H.
    destruct (array_index k') as [j|]; [destruct (j <? i)%N|]; simpl;
      rewrite ?E, ?String.eqb_refl; auto.
Qed.

Lemma get_define_same (k : string) (v : jsval) (o : t) :
  get k (define k v o) = Some v.
Proof.
  unfold define. destruct (has k o) eqn:H.
  - apply get_update_same. unfold has in H. destruct (get k o); congruence.
  - apply has_false_iff in H.
    destruct (array_index k); [now apply get_insert_index_same|].
    now apply get_app_fresh.
Qed.

Lemma get_set_same (k : string) (v : jsval) (o : t) :
  k <> "__proto__" -> get k (set k v o) = Some v.
Proof.
  intros H. unfold set. apply String.eqb_neq in H. rewrite H.
  apply get_define_same.
Qed.

Lemma get_app_other (k k' : string) (v : jsval) (o : t) :
  k <> k' -> get k (o ++ [(k', v)]) = get k o.
Proof.
  intros Hne. induction o as [|[k0 v0] o IH]; simpl.
  - apply String.eqb_neq in Hne. rewrite String.eqb_sym in Hne.
    now rewrite Hne.
  - now rewrite IH.
Qed.

Lemma get_update_other (k k' : string) (v : jsval) (o : t) :
  k <> k' -> get k (update k' v o) = get k o.
Proof.
  intros Hne. induction o as [|[k0 v0] o IH]; simpl; [reflexivity|].
  destruct (String.eqb_spec k0 k') as [->|Hk0]; simpl.
  - apply String.eqb_neq in Hne. rewrite String.eqb_sym in Hne.
    now rewrite Hne.
  - now rewrite IH.
Qed.

Lemma get_insert_index_other (i : N) (k k' : string) (v : jsval) (o : t) :
  k <> k' -> get k (insert_index i k' v o) = get k o.
Proof.
  intros Hne. assert (E : String.eqb k' k = false)
    by (apply String.eqb_neq; congruence).
  induction o as [|[k0 v0] o IH]; simpl; [now rewrite E|].
  destruct (array_index k0) as [j|]; [destruct (j <? i)%N|]; simpl;
    rewrite ?E, ?IH; reflexivity.
Qed.

Lemma get_define_other (k k' : string) (v : jsval) (o : t) :
  k <> k' -> get k (define k' v o) = get k o.
Proof.
  intros Hne. unfold define. destruct (has k' o).
  - now apply get_update_other.
  - destruct (array_index k'); [now apply get_insert_index_other|].
    now apply get_app_other.
Qed.

Lemma get_set_other (k k' : string) (v : jsval) (o : t) :
  k <> k' -> get k (set k' v o) = get k o.
Proof.
  intros Hne. unfold set. destruct (String.eqb k' "__proto__"); trivial.
  now apply get_define_other.
Qed.

(** An ordinary new name goes to the end. *)
Lemma set_fresh_ordinary (k : string) (v : jsval) (o : t) :
  k <> "__proto__" -> array_index k = None -> ~ In k (keys o) ->
  set k v o = o ++ [(k, v)].
Proof.
  intros Hp Hi Hk. unfold set, define.
  apply String.eqb_neq in Hp. apply get_none_iff, has_false_iff in Hk.
  now rewrite Hp, Hk, Hi.
Qed.

(** A new name is added somewhere: the properties are the old ones and
    the new one. *)
Lemma insert_index_perm (i : N) (k : string) (v : jsval) (o : t) :
  Permutation (insert_index i k v o) ((k, v) :: o).
Proof.
  induction o as [|[k' v'] o IH]; simpl; [reflexivity|].
  destruct (array_index k') as [j|]; [destruct (j <? i)%N|];
    try reflexivity.
  rewrite IH. apply perm_swap.
Qed.

Lemma set_fresh_perm (k : string) (v : jsval) (o : t) :
  k <> "__proto__" -> ~ In k (keys o) ->
  Permutation (set k v o) (o ++ [(k, v)]).
Proof.
  intros Hp Hk. unfold set, define.
  apply String.eqb_neq in Hp. apply get_none_iff, has_false_iff in Hk.
  rewrite Hp, Hk. destruct (array_index k); [|reflexivity].
  rewrite insert_index_perm. apply Permutation_cons_append.
Qed.

Lemma get_delete_same (k : string) (o : t) : get k (delete k o) = None.
Proof.
  induction o as [|[k' v] o IH]; simpl; [reflexivity|].
  destruct (String.eqb k' k) eqn:E; simpl; [exact IH | now rewrite E].
Qed.

Lemma get_delete_other (k k' : string) (o : t) :
  k' <> k -> get k' (delete k o) = get k' o.
Proof.
  intros Hne. induction o as [|[k0 v] o IH]; simpl; [reflexivity|].
  destruct (String.eqb_spec k0 k) as [->|Hk].
  - apply String.eqb_neq in Hne. rewrite String.eqb_sym in Hne.
    now rewrite Hne.
  - simpl. now rewrite IH.
Qed.

Lemma delete_incl (k : string) (o : t) : incl (delete k o) o.
Proof.
  induction o as [|[k' v] o IH]; simpl; [easy|].
  destruct (String.eqb k' k).
  - now apply incl_tl.
  - apply incl_cons; [now left | now apply incl_tl].
Qed.

Lemma delete_not_in (k : string) (v : jsval) (o : t) :
  ~ In (k, v) (delete k o).
Proof.
  induction o as [|[k' v'] o IH]; simpl; [tauto|].
  destruct (String.eqb_spec k' k) as [->|Hne]; [exact IH|].
  simpl. intros [H|H]; [congruence | tauto].
Qed.

End JSObjectFacts.

(** ** The header parser *)

Section HeaderFacts.
Import JSString JSStringFacts JSObjectFacts.

Lemma ordinary_key_spec (k : string) :
  ordinary_key k = true <-> k <> "__proto__" /\ JSObject.array_index k = None.
Proof.
  unfold ordinary_key. rewrite andb_true_iff, negb_true_iff, String.eqb_neq.
  destruct (JSObject.array_index k); intuition congruence.
Qed.

(** On a line that begins with the marker, [indexOf(':') > 0] says that
    the line contains a colon: none can be at position 0. *)
Lemma has_colon_iff (e : string) :
  has_marker e = true -> (has_colon e = true <-> occurs ":" e = true).
Proof.
  intros Hm. unfold has_colon, indexOf. rewrite Z.ltb_lt.
  destruct e as [|c e]; [discriminate|].
  unfold has_marker, startsWith in Hm. rewrite prefix_cons in Hm.
  apply andb_true_iff in Hm as [Hc _]. apply Ascii.eqb_eq in Hc. subst c.
  cbn [indexOf_from occurs]. rewrite prefix_cons.
  change (Ascii.eqb ":" "-") with false. cbn [andb orb].
  change (0 + 1)%Z with 1%Z.
  destruct (occurs ":" e) eqn:E.
  - split; trivial. intros _.
    pose proof (indexOf_from_found ":" e 1 E). lia.
  - rewrite (indexOf_from_missing ":" e _ E). split; [lia | discriminate].
Qed.

(** The lines that stand for an entry are the lines that begin with the
    marker and contain a colon. *)
Lemma metadata_lines_spec (lines : list string) (e : string) :
  In e (metadata_lines lines) <->
  In e lines /\ startsWith "---" e = true /\ occurs ":" e = true.
Proof.
  unfold metadata_lines. rewrite !filter_In. fold (has_marker e). split.
  - intros [[Hin Hm] Hc]. repeat split; trivial. now apply has_colon_iff.
  - intros (Hin & Hm & Hc). repeat split; trivial. now apply has_colon_iff.
Qed.

(** A metadata line without [': '] after its first four code units gives
    the rest of the line as the key and [undefined] as the value. *)
Lemma header_entry_without_delimiter (e : string) :
  occurs ": " (substring 4 e) = false ->
  header_entry e = (substring 4 e, JUndefined).
Proof.
  intros H. unfold header_entry, header_key, header_value, key_value.
  now rewrite split_colon_space_none.
Qed.

Lemma metadata_lines_app (l1 l2 : list string) :
  metadata_lines (l1 ++ l2) = metadata_lines l1 ++ metadata_lines l2.
Proof. unfold metadata_lines. now rewrite !filter_app. Qed.

Lemma getExtraParameters_lines (query : string) :
  getExtraParameters query =
  fold_left collect (map key_value (metadata_lines (split LF query))) [].
Proof. reflexivity. Qed.

(** The lines the parser sees in a text joined from lines. *)
Lemma lines_of_join (lines : list string) :
  forallb is_line lines = true ->
  metadata_lines (split LF (join LF lines)) = metadata_lines lines.
Proof.
  intros H. destruct lines as [|x l]; [reflexivity|].
  rewrite split_LF_join by discriminate.
  now rewrite flat_map_split_lines.
Qed.

Lemma metadata_lines_idempotent (lines : list string) :
  metadata_lines (metadata_lines lines) = metadata_lines lines.
Proof.
  unfold metadata_lines.
  induction lines as [|e lines IH]; [reflexivity|]. cbn [filter].
  destruct (has_marker e) eqn:Hm; [|exact IH]. cbn [filter].
  destruct (has_colon e) eqn:Hc; [|exact IH].
  cbn [filter]. rewrite Hm. cbn [filter]. rewrite Hc. now rewrite IH.
Qed.

Lemma metadata_lines_are_lines (lines : list string) :
  forallb is_line lines = true ->
  forallb is_line (metadata_lines lines) = true.
Proof.
  rewrite !forallb_forall. intros H e He.
  apply metadata_lines_spec in He. now apply H.
Qed.

Lemma collect_entry (acc : JSObject.t) (e : string) :
  collect acc (key_value e) =
  JSObject.set (header_key e) (header_value e) acc.
Proof. reflexivity. Qed.

(** Lines with fresh ordinary names are appended one after the other. *)
Lemma collect_fresh (good : list string) (acc : JSObject.t) :
  NoDup (JSObject.keys acc ++ map header_key good) ->
  forallb ordinary_key (map header_key good) = true ->
  fold_left collect (map key_value good) acc = acc ++ map header_entry good.
Proof.
  revert acc. induction good as [|e good IH]; intros acc Hnd Hord.
  - simpl. now rewrite app_nil_r.
  - simpl in Hord. apply andb_true_iff in Hord as [He Hord].
    apply ordinary_key_spec in He as [Hp Hi].
    cbn [map fold_left]. rewrite collect_entry.
    rewrite set_fresh_ordinary; trivial.
    + rewrite IH; trivial.
      * now rewrite <- app_assoc.
      * unfold JSObject.keys in *. rewrite map_app, <- app_assoc. exact Hnd.
    + intros Hin. apply NoDup_remove_2 in Hnd. apply Hnd.
      apply in_or_app. now left.
Qed.

(** Lines with fresh names other than [__proto__] add one entry each. *)
Lemma collect_fresh_perm (good : list string) (acc : JSObject.t) :
  NoDup (JSObject.keys acc ++ map header_key good) ->
  Forall (fun k => k <> "__proto__") (map header_key good) ->
  Permutation (fold_left collect (map key_value good) acc)
              (acc ++ map header_entry good).
Proof.
  revert acc. induction good as [|e good IH]; intros acc Hnd Hp.
  - simpl. now rewrite app_nil_r.
  - inversion Hp as [|? ? He Hp']; subst.
    cbn [map fold_left]. rewrite collect_entry.
    assert (Hfresh : ~ In (header_key e) (JSObject.keys acc)).
    { intros Hin. apply NoDup_remove_2 in Hnd. apply Hnd.
      apply in_or_app. now left. }
    pose proof (set_fresh_perm (header_key e) (header_value e) acc
                  He Hfresh) as Hset.
    rewrite IH; trivial.
    + rewrite Hset, <- app_assoc. reflexivity.
    + apply Permutation_NoDup with (2 := Hnd).
      unfold JSObject.keys. rewrite Hset, map_app, <- app_assoc.
      reflexivity.
Qed.

End HeaderFacts.

Section HeaderTheorems.
Import JSString JSStringFacts JSObjectFacts.

(** C2, as stated, fails: two well-formed metadata lines that carry the
    same key leave one entry, holding the value of the later line. *)
Lemma repeated_key_yields_one_entry :
  metadata_lines ["--- a: 1"; "--- a: 2"] = ["--- a: 1"; "--- a: 2"] /\
  getExtraParameters (join LF ["--- a: 1"; "--- a: 2"]) = [("a", JStr "2")] /\
  List.length (getExtraParameters (join LF ["--- a: 1"; "--- a: 2"]))
  <> List.length (metadata_lines ["--- a: 1"; "--- a: 2"]).
Proof. repeat split. vm_compute. discriminate. Qed.

(** Names that are array indices are enumerated first and in numeric
    order, not in line order. *)
Example index_keys_are_reordered :
  JSObject.keys (getExtraParameters (join LF ["--- b: x"; "--- 10: y"; "--- 9: z"]))
  = ["9"; "10"; "b"].
Proof. reflexivity. Qed.

(** Whatever the keys, the value found under a key is the one of the last
    line that carries it. *)
Lemma header_last_line_wins (lines : list string) (k : string) :
  forallb is_line lines = true -> k <> "__proto__" ->
  JSObject.get k (getExtraParameters (join LF lines)) = last_value k lines.
Proof.
  intros Hlines Hk.
  rewrite getExtraParameters_lines, lines_of_join by assumption.
  unfold last_value.
  change (@None jsval) with (JSObject.get k []).
  generalize (@nil (string * jsval)) as acc.
  induction (metadata_lines lines) as [|e good IH]; intros acc;
    [reflexivity|].
  cbn [map fold_left]. rewrite IH, collect_entry. f_equal.
  destruct (String.eqb_spec (header_key e) k) as [->|Hne].
  - now apply get_set_same.
  - apply get_set_other. congruence.
Qed.

(** The header and the column descriptions of [rum-attribution.sql]. *)
Example attribution_parameters :
  JSObject.keys (getExtraParameters Sample.attribution_sql)
  = ["description"; "Authorization"; "Access-Control-Allow-Origin"; "url";
     "limit"; "offset"; "startdate"; "enddate"; "timezone";
     "conversioncheckpoint"; "sources"; "targets"; "checkpoint"; "within";
     "attribute"; "domainkey"; "attributable"; "sessions"].
Proof. vm_compute. reflexivity. Qed.

(** The name [__proto__] adds no entry at all. *)
Example proto_key_adds_no_entry :
  getExtraParameters (join LF ["--- __proto__: x"; "--- a: 1"])
  = [("a", JStr "1")].
Proof. reflexivity. Qed.

(** C2 (amended): for every template body made of lines, the lines that
    do not begin with the marker or contain no colon contribute nothing:
    without them the result is the same.  When the N lines that begin with
    the marker and contain a colon carry pairwise distinct keys other than
    [__proto__], [getExtraParameters] returns exactly their N entries, and
    in the order of the lines when no key is an array index. *)
Theorem header_entries_in_line_order (lines : list string) :
  forallb is_line lines = true ->
  NoDup (map header_key (metadata_lines lines)) ->
  Forall (fun k => k <> "__proto__") (map header_key (metadata_lines lines)) ->
  getExtraParameters (join LF lines)
  = getExtraParameters (join LF (metadata_lines lines))
  /\ Permutation (getExtraParameters (join LF lines))
                 (map header_entry (metadata_lines lines))
  /\ List.length (getExtraParameters (join LF lines))
     = List.length (metadata_lines lines)
  /\ (forallb ordinary_key (map header_key (metadata_lines lines)) = true ->
      getExtraParameters (join LF lines)
      = map header_entry (metadata_lines lines)).
Proof.
  intros Hlines Hnd Hp.
  assert (P : Permutation (getExtraParameters (join LF lines))
                          (map header_entry (metadata_lines lines))).
  { rewrite getExtraParameters_lines, lines_of_join by assumption.
    now rewrite collect_fresh_perm. }
  split; [|split; [exact P|split]].
  - rewrite !getExtraParameters_lines, !lines_of_join;
      auto using metadata_lines_are_lines.
    now rewrite metadata_lines_idempotent.
  - now rewrite (Permutation_length P), length_map.
  - intros Hord.
    rewrite getExtraParameters_lines, lines_of_join by assumption.
    now rewrite collect_fresh.
Qed.

Lemma header_entries_in_line_order_witness :
  getExtraParameters
    (join LF ["--- url: -"; "SELECT * FROM t -- note: x"; "--- limit: 100";
              "--- no colon here"; ""; "--- offset: 0"])
  = [("url", JStr "-"); ("limit", JStr "100"); ("offset", JStr "0")].
Proof.
  apply (header_entries_in_line_order
           ["--- url: -"; "SELECT * FROM t -- note: x"; "--- limit: 100";
            "--- no colon here"; ""; "--- offset: 0"]).
  - reflexivity.
  - vm_compute. repeat constructor; simpl; intuition discriminate.
  - vm_compute. repeat constructor; discriminate.
  - reflexivity.
Defined.

(** The [': '] of a metadata line built from a key without one is the
    first of the line. *)
Lemma key_value_inner_delimiter (k v1 v2 : string) :
  occurs ": " k = false -> occurs ": " v1 = false ->
  key_value (metadata_line k (v1 ++ ": " ++ v2)) = k :: v1 :: split ": " v2.
Proof.
  intros Hk Hv. unfold key_value, metadata_line.
  change (substring 4 ("--- " ++ k ++ ": " ++ v1 ++ ": " ++ v2))
    with (k ++ ": " ++ v1 ++ ": " ++ v2)%string.
  now rewrite !split_colon_space_first.
Qed.

Lemma metadata_line_passes (k v : string) :
  metadata_lines [metadata_line k v] = [metadata_line k v].
Proof.
  unfold metadata_lines. cbn [filter].
  assert (Hm : has_marker (metadata_line k v) = true).
  { unfold has_marker, startsWith, metadata_line.
    change ("--- " ++ k ++ ": " ++ v)%string
      with ("---" ++ (" " ++ k ++ ": " ++ v))%string.
    apply prefix_self_app. }
  rewrite Hm. cbn [filter].
  assert (Hc : has_colon (metadata_line k v) = true).
  { unfold has_colon, indexOf, metadata_line. apply Z.ltb_lt.
    change (indexOf_from ":" ("--- " ++ k ++ ": " ++ v) 0)
      with (indexOf_from ":" (k ++ ": " ++ v) 4).
    assert (4 <= indexOf_from ":" (k ++ ": " ++ v) 4)%Z; [|lia].
    apply indexOf_from_found, occurs_app_r.
    change (": " ++ v)%string with (":" ++ (" " ++ v))%string.
    apply occurs_self_app. }
  now rewrite Hc.
Qed.

Lemma metadata_line_is_line (k v : string) :
  is_line k = true -> is_line v = true ->
  split LF (metadata_line k v) = [metadata_line k v].
Proof.
  unfold is_line. rewrite !negb_true_iff. intros Lk Lv.
  apply split_LF_line. unfold metadata_line.
  rewrite !occurs_LF_app, Lk, Lv. reflexivity.
Qed.

(** Lines that carry other keys leave the value under [k] as it is. *)
Lemma collect_other_keys (k : string) (good : list string) (acc : JSObject.t) :
  Forall (fun e => header_key e <> k) good ->
  JSObject.get k (fold_left collect (map key_value good) acc)
  = JSObject.get k acc.
Proof.
  intros H. revert acc.
  induction H as [|e good He _ IH]; intros acc; [reflexivity|].
  cbn [map fold_left]. rewrite IH, collect_entry.
  apply get_set_other. congruence.
Qed.

(** C10: for every metadata line [--- k: v] whose value [v] holds the
    delimiter [': '], say [v = v1 ++ ": " ++ v2] with no [': '] in [v1],
    what the line assigns to [k] is [v1] alone; what follows the inner
    delimiter is dropped.  The line stands anywhere in the template,
    after the lines [before] and in front of the lines [after]: the
    result is what the lines [after] assign on top of [k := v1] on top of
    the parameters of [before]; so when no metadata line of [after]
    carries the key [k] again, the value stored for [k] is [v1]. *)
Theorem header_value_stops_at_inner_delimiter
    (before after : list string) (k v1 v2 : string) :
  occurs ": " k = false -> occurs ": " v1 = false ->
  is_line k = true -> is_line (v1 ++ ": " ++ v2) = true ->
  forallb is_line after = true ->
  getExtraParameters
    (join LF (before ++ metadata_line k (v1 ++ ": " ++ v2) :: after))
  = fold_left collect (map key_value (metadata_lines after))
      (JSObject.set k (JStr v1) (getExtraParameters (join LF before)))
  /\ (k <> "__proto__" ->
      Forall (fun e => header_key e <> k) (metadata_lines after) ->
      JSObject.get k
        (getExtraParameters
           (join LF (before ++ metadata_line k (v1 ++ ": " ++ v2) :: after)))
      = Some (JStr v1)).
Proof.
  intros Hk Hv1 Lk Lv Lafter.
  assert (E : getExtraParameters
                (join LF (before
                          ++ metadata_line k (v1 ++ ": " ++ v2) :: after))
              = fold_left collect (map key_value (metadata_lines after))
                  (JSObject.set k (JStr v1)
                     (getExtraParameters (join LF before)))).
  { rewrite (getExtraParameters_lines (join LF (before ++ _))).
    rewrite split_LF_join by (destruct before; discriminate).
    rewrite flat_map_app. cbn [flat_map].
    rewrite metadata_line_is_line by assumption.
    rewrite (flat_map_split_lines after) by exact Lafter.
    rewrite !metadata_lines_app, metadata_line_passes.
    rewrite !map_app, !fold_left_app. cbn [map fold_left].
    rewrite key_value_inner_delimiter by assumption.
    unfold collect at 2. cbn [arr_key arr_get nth_error].
    do 2 f_equal. destruct before as [|b before]; [reflexivity|].
    rewrite getExtraParameters_lines, split_LF_join by discriminate.
    reflexivity. }
  split; [exact E|]. intros Hp Hafter. rewrite E.
  rewrite collect_other_keys by exact Hafter. now apply get_set_same.
Qed.

Lemma header_value_stops_at_inner_delimiter_witness :
  JSObject.get "description"
    (getExtraParameters
       (join LF (["--- limit: 100"; "SELECT 1"]
                 ++ metadata_line "description"
                      ("Top pages" ++ ": " ++ "by views: daily")
                    :: ["--- url: -"; "SELECT url FROM t"; "--- views: n"])))
  = Some (JStr "Top pages").
Proof.
  apply (header_value_stops_at_inner_delimiter
           ["--- limit: 100"; "SELECT 1"]
           ["--- url: -"; "SELECT url FROM t"; "--- views: n"]
           "description" "Top pages" "by views: daily");
    try solve [reflexivity | discriminate].
  vm_compute. repeat constructor; discriminate.
Defined.

End HeaderTheorems.

(** ** The stream handlers *)

Section HandlerFacts.

Local Open Scope nat_scope.

Context {credentials dataset row : Type}.
Variable w : @World credentials dataset row.

Lemma zero_within_budget (n : nat) :
  Qle_bool (0 * inject_Z (Z.of_nat n)) budget = true.
Proof. apply Qle_bool_iff. rewrite Qmult_0_l. discriminate. Qed.

Lemma crosses_iff (rows : list row) (n : nat) :
  crosses w rows n = true <-> exceeds_budget w rows n.
Proof.
  unfold crosses, exceeds_budget. rewrite negb_true_iff. split.
  - intros H. apply Qnot_le_lt. rewrite <- Qle_bool_iff. congruence.
  - intros H. apply Qlt_not_le in H. rewrite <- Qle_bool_iff in H.
    now destruct (Qle_bool _ _).
Qed.

Lemma crosses_false_iff (rows : list row) (n : nat) :
  crosses w rows n = false <-> ~ exceeds_budget w rows n.
Proof.
  rewrite <- crosses_iff. destruct (crosses w rows n); split; congruence.
Qed.

(** The estimate depends on the first ten rows only. *)
Lemma estimate_app (rows more : list row) :
  10 <= List.length rows -> estimate w (rows ++ more) = estimate w rows.
Proof.
  intros H. unfold estimate. rewrite firstn_app.
  replace (10 - List.length rows) with 0 by lia.
  now rewrite firstn_O, app_nil_r.
Qed.

Lemma estimate_firstn (rows : list row) (m : nat) :
  10 <= m -> estimate w (firstn m rows) = estimate w rows.
Proof.
  intros H. unfold estimate. rewrite firstn_firstn.
  now replace (Nat.min 10 m) with 10 by lia.
Qed.

Lemma crosses_app (rows more : list row) (n : nat) :
  10 <= List.length rows -> crosses w (rows ++ more) n = crosses w rows n.
Proof. intros H. unfold crosses. now rewrite estimate_app. Qed.

(** One [data] event, by the number of rows held. *)
Lemma on_data_sampling (r : row) (rs : list row) (a : Q) (p : promise) :
  List.length rs = 10 ->
  on_data w r (Handlers rs a p) =
  if crosses w rs 10
  then Handlers rs (estimate w rs) (settle p (Resolved (Result true rs)))
  else Handlers (rs ++ [r]) (estimate w rs) p.
Proof.
  intros H.
  assert (F : firstn 10 rs = rs) by (rewrite <- H; apply firstn_all).
  unfold on_data, spaceleft, crosses, estimate.
  cbn [h_results h_avgsize h_promise]. rewrite F, H. cbn [Nat.eqb].
  now destruct (Qle_bool _ _).
Qed.

Lemma on_data_other (r : row) (rs : list row) (a : Q) (p : promise) :
  List.length rs <> 10 ->
  on_data w r (Handlers rs a p) =
  if Qle_bool (a * inject_Z (Z.of_nat (List.length rs))) budget
  then Handlers (rs ++ [r]) a p
  else Handlers rs a (settle p (Resolved (Result true rs))).
Proof.
  intros H. unfold on_data, spaceleft. cbn [h_results h_avgsize h_promise].
  apply Nat.eqb_neq in H. rewrite H. reflexivity.
Qed.

Lemma after_rows_snoc (rows : list row) (r : row) :
  after_rows w (rows ++ [r]) = on_data w r (after_rows w rows).
Proof. unfold after_rows, consume. now rewrite map_app, fold_left_app. Qed.

Lemma consume_row_stream (rows : list row) :
  consume w (row_stream rows) = on_end (after_rows w rows).
Proof. unfold consume, row_stream, after_rows. now rewrite fold_left_app. Qed.

(** While the estimate has not crossed the budget every row is held and
    the promise is pending; once it has crossed with [k] rows held, the
    promise is resolved with those [k] rows and nothing changes any more. *)
Lemma after_rows_spec (rows : list row) :
  ((forall n, 10 <= n < List.length rows -> crosses w rows n = false) ->
   after_rows w rows =
   Handlers rows
     (if List.length rows <=? 10 then 0%Q else estimate w rows) Pending)
  /\
  (forall k, 10 <= k < List.length rows -> crosses w rows k = true ->
     (forall n, 10 <= n < k -> crosses w rows n = false) ->
     after_rows w rows =
     Handlers (firstn k rows) (estimate w rows)
       (Resolved (Result true (firstn k rows)))).
Proof.
  induction rows as [|r rows [IHa IHb]] using rev_ind.
  - split; [reflexivity | simpl; intros; lia].
  - rewrite after_rows_snoc, length_app. cbn [List.length].
    destruct (Nat.lt_trichotomy (List.length rows) 10) as [Hlt|[Heq|Hgt]].
    + (* fewer than ten rows held: the estimate is still 0 *)
      split; [|intros; lia]. intros _.
      rewrite IHa by (intros; lia).
      replace (List.length rows <=? 10) with true
        by (symmetry; apply Nat.leb_le; lia).
      rewrite on_data_other by lia. rewrite zero_within_budget.
      now replace (List.length rows + 1 <=? 10) with true
        by (symmetry; apply Nat.leb_le; lia).
    + (* ten rows held: the estimate is sampled *)
      assert (E : estimate w (rows ++ [r]) = estimate w rows)
        by (apply estimate_app; lia).
      rewrite IHa by (intros; lia). rewrite on_data_sampling by assumption.
      rewrite E. split.
      * intros Hno. rewrite <- (crosses_app rows [r]) by lia.
        rewrite Hno by lia.
        now replace (List.length rows + 1 <=? 10) with false
          by (symmetry; apply Nat.leb_gt; lia).
      * intros k Hk Hc _. assert (k = 10) by lia. subst k.
        rewrite crosses_app in Hc by lia. rewrite Hc.
        rewrite firstn_app, <- Heq, Nat.sub_diag, firstn_all.
        cbn [firstn settle]. now rewrite app_nil_r.
    + (* more than ten rows held: the estimate stays *)
      assert (E : estimate w (rows ++ [r]) = estimate w rows)
        by (apply estimate_app; lia).
      rewrite E. split.
      * intros Hno.
        rewrite IHa
          by (intros n Hn; rewrite <- (crosses_app rows [r]) by lia;
              apply Hno; lia).
        replace (List.length rows <=? 10) with false
          by (symmetry; apply Nat.leb_gt; lia).
        rewrite on_data_other by lia.
        specialize (Hno (List.length rows) ltac:(lia)).
        rewrite crosses_app in Hno by lia. unfold crosses in Hno.
        apply negb_false_iff in Hno. rewrite Hno.
        now replace (List.length rows + 1 <=? 10) with false
          by (symmetry; apply Nat.leb_gt; lia).
      * intros k Hk Hc Hleast. rewrite crosses_app in Hc by lia.
        assert (Hleast' : forall n, 10 <= n < k -> crosses w rows n = false)
          by (intros n Hn; rewrite <- (crosses_app rows [r]) by lia;
              now apply Hleast).
        destruct (Nat.eq_dec k (List.length rows)) as [->|Hne].
        -- rewrite IHa by assumption.
           replace (List.length rows <=? 10) with false
             by (symmetry; apply Nat.leb_gt; lia).
           rewrite on_data_other by lia.
           unfold crosses in Hc. apply negb_true_iff in Hc. rewrite Hc.
           rewrite firstn_app, Nat.sub_diag, firstn_all.
           cbn [firstn settle]. now rewrite app_nil_r.
        -- rewrite (IHb k) by (assumption || lia).
           assert (Hlen : List.length (firstn k rows) = k)
             by (rewrite length_firstn; lia).
           rewrite firstn_app.
           replace (k - List.length rows) with 0 by lia.
           rewrite firstn_O, app_nil_r.
           destruct (Nat.eq_dec k 10) as [->|Hk10].
           ++ rewrite on_data_sampling by assumption.
              unfold crosses at 1. rewrite estimate_firstn by lia.
              fold (crosses w rows 10). now rewrite Hc.
           ++ rewrite on_data_other by lia. rewrite Hlen.
              unfold crosses in Hc. apply negb_true_iff in Hc.
              now rewrite Hc.
Qed.

End HandlerFacts.

(** ** The executor *)

Section ExecutorFacts.

Local Open Scope nat_scope.

Context {credentials dataset row : Type}.
Variable w : @World credentials dataset row.

(** A bounded search finds no true value or a least one. *)
Lemma least_true (P : nat -> bool) (lo hi : nat) :
  (forall n, lo <= n < hi -> P n = false) \/
  (exists k, lo <= k < hi /\ P k = true /\
             forall n, lo <= n < k -> P n = false).
Proof.
  induction hi as [|hi [IH|(k & Hk & Hp & Hl)]].
  - left. intros; lia.
  - destruct (le_lt_dec lo hi) as [Hle|Hlt].
    + destruct (P hi) eqn:E.
      * right. exists hi. repeat split; trivial; lia.
      * left. intros n Hn. destruct (Nat.eq_dec n hi) as [->|]; trivial.
        apply IH. lia.
    + left. intros; lia.
  - right. exists k. repeat split; trivial; lia.
Qed.

(** The value of [avgsize] once the [data] events of [rows] are handled:
    the initial 0 up to the tenth row, the estimate of the first ten rows
    from the eleventh on. *)
Lemma avgsize_after_rows (rows : list row) :
  h_avgsize (after_rows w rows) =
  if List.length rows <=? 10 then 0%Q else estimate w rows.
Proof.
  destruct (after_rows_spec w rows) as [Ha Hb].
  destruct (least_true (crosses w rows) 10 (List.length rows))
    as [Hno|(k & Hk & Hc & Hl)].
  - now rewrite Ha.
  - rewrite (Hb k) by assumption. cbn [h_avgsize].
    now replace (List.length rows <=? 10) with false
      by (symmetry; apply Nat.leb_gt; lia).
Qed.

(** When [execute] gets as far as the stream, its promise is the one the
    handlers settle. *)
Lemma execute_streams (email key project name : string)
    (service : option string) (params_arg : option JSObject.t)
    (evs : list (stream_event row)) :
  streams w email key project name service params_arg evs ->
  snd (execute w email key project name service params_arg)
  = h_promise (consume w evs).
Proof.
  intros (tr & ds & text & Hopen & Hread & Hstream).
  unfold execute, start_stream, loadQuery, bind, call.
  now rewrite Hopen, Hread, Hstream.
Qed.

(** The promise after a stream of rows that ends. *)
Lemma row_stream_outcome (rows : list row) :
  ((forall n, 10 <= n < List.length rows -> crosses w rows n = false) /\
   h_promise (consume w (row_stream rows)) = Resolved (Result false rows))
  \/
  (exists k, 10 <= k < List.length rows /\ crosses w rows k = true /\
             (forall n, 10 <= n < k -> crosses w rows n = false) /\
             h_promise (consume w (row_stream rows))
             = Resolved (Result true (firstn k rows))).
Proof.
  rewrite consume_row_stream.
  destruct (after_rows_spec w rows) as [Ha Hb].
  destruct (least_true (crosses w rows) 10 (List.length rows))
    as [Hno|(k & Hk & Hc & Hl)].
  - left. split; trivial. now rewrite Ha.
  - right. exists k. repeat split; trivial; try lia.
    now rewrite (Hb k).
Qed.

(** C1: for every stream of rows that [execute] consumes, the promise is
    resolved, and [truncated] is true exactly when a row arrives while the
    estimate sampled from the first ten rows, multiplied by the number of
    rows held, exceeds the budget.  In that case the result holds the [k]
    rows held at the first such arrival; otherwise it holds every row.
    The estimate itself is 0 until the eleventh row arrives, and from
    then on the one value sampled from the first ten rows. *)
Theorem truncated_iff_estimate_crosses_budget
    (email key project name : string) (service : option string)
    (params_arg : option JSObject.t) (rows : list row) :
  streams w email key project name service params_arg (row_stream rows) ->
  exists r,
    snd (execute w email key project name service params_arg) = Resolved r /\
    (truncated r = true <->
     exists n, 10 <= n < List.length rows /\ exceeds_budget w rows n) /\
    (truncated r = true ->
     exists k, 10 <= k < List.length rows /\ exceeds_budget w rows k /\
               (forall n, 10 <= n < k -> ~ exceeds_budget w rows n) /\
               results r = firstn k rows /\ List.length (results r) = k) /\
    (forall k, 10 <= k < List.length rows -> exceeds_budget w rows k ->
               List.length (results r) <= k) /\
    (truncated r = false -> results r = rows) /\
    (forall m, m <= List.length rows ->
       h_avgsize (after_rows w (firstn m rows)) =
       if m <=? 10 then 0%Q else estimate w rows).
Proof.
  intros Hs. rewrite (execute_streams _ _ _ _ _ _ _ Hs).
  assert (Havg : forall m, m <= List.length rows ->
            h_avgsize (after_rows w (firstn m rows)) =
            if m <=? 10 then 0%Q else estimate w rows).
  { intros m Hm. rewrite avgsize_after_rows, length_firstn.
    replace (Nat.min m (List.length rows)) with m by lia.
    destruct (m <=? 10) eqn:E; trivial.
    apply Nat.leb_gt in E. apply estimate_firstn. lia. }
  destruct (row_stream_outcome rows) as [[Hno ->]|(k & Hk & Hc & Hl & ->)].
  - exists (Result false rows). cbn [truncated results].
    repeat split; trivial; try discriminate.
    + intros (n & Hn & Hx). apply crosses_iff in Hx.
      rewrite Hno in Hx by assumption. discriminate.
    + intros n Hn Hx. apply crosses_iff in Hx.
      rewrite Hno in Hx by assumption. discriminate.
  - exists (Result true (firstn k rows)). cbn [truncated results].
    repeat split; trivial; try discriminate.
    + intros _. exists k. split; [assumption|]. now apply crosses_iff.
    + intros _. exists k. repeat split; try lia.
      * now apply crosses_iff.
      * intros n Hn. apply crosses_false_iff. now apply Hl.
      * rewrite length_firstn. lia.
    + intros n Hn Hx. rewrite length_firstn.
      destruct (le_lt_dec k n) as [|Hlt]; [lia|].
      apply crosses_iff in Hx. rewrite Hl in Hx by lia. discriminate.
Qed.

(** C9: for every stream of at most ten rows [execute] resolves with
    [truncated = false] and all the rows, whatever their size: whatever
    the stream, the result starts with its first ten rows, and a truncated
    result means that an eleventh row arrived. *)
Theorem first_ten_rows_always_accepted
    (email key project name : string) (service : option string)
    (params_arg : option JSObject.t) (rows : list row) :
  streams w email key project name service params_arg (row_stream rows) ->
  (List.length rows <= 10 ->
   snd (execute w email key project name service params_arg)
   = Resolved (Result false rows)) /\
  (exists r,
     snd (execute w email key project name service params_arg) = Resolved r
     /\ firstn 10 (results r) = firstn 10 rows
     /\ (truncated r = true -> 10 < List.length rows)).
Proof.
  intros Hs. rewrite (execute_streams _ _ _ _ _ _ _ Hs).
  destruct (row_stream_outcome rows) as [[Hno ->]|(k & Hk & Hc & Hl & ->)].
  - split; [reflexivity|]. exists (Result false rows).
    cbn [truncated results]. repeat split. discriminate.
  - split; [intros; lia|]. exists (Result true (firstn k rows)).
    cbn [truncated results]. repeat split; [|intros; lia].
    rewrite firstn_firstn. now replace (Nat.min 10 k) with 10 by lia.
Qed.

End ExecutorFacts.

(** ** The calls [execute] makes *)

Section PipelineFacts.

Context {credentials dataset row : Type}.
Variable w : @World credentials dataset row.

(** [execute], call by call. *)
Lemma execute_spec (email key project name : string)
    (service : option string) (params_arg : option JSObject.t) :
  execute w email key project name service params_arg =
  let ps := effective_params params_arg in
  let path := query_path w name None in
  let ev_auth := EvAuth email key in
  let ev_dataset := EvDatasetGet project (service_name service) "US" in
  match auth w email key with
  | inl e => ([ev_auth], Rejected (wrapped e))
  | inr cred =>
      match dataset_get w project cred (service_name service) "US" with
      | inl e => ([ev_auth; ev_dataset], Rejected (wrapped e))
      | inr ds =>
          match readFileSync w path with
          | inl e => ([ev_auth; ev_dataset; EvReadFile path], Rejected e)
          | inr text =>
              ([ev_auth; ev_dataset; EvReadFile path;
                EvCreateQueryStream (request text ps)],
               h_promise
                 (consume w (createQueryStream w ds (request text ps))))
          end
      end
  end.
Proof.
  unfold execute, open_dataset, start_stream, loadQuery, bind, call.
  destruct (auth w email key) as [e|cred]; [reflexivity|].
  destruct (dataset_get w project cred (service_name service) "US")
    as [e|ds]; [reflexivity|].
  destruct (readFileSync w (query_path w name None)); reflexivity.
Qed.

(** At most one query is submitted, and it is built from the text of the
    template file. *)
Lemma submitted_execute (email key project name : string)
    (service : option string) (params_arg : option JSObject.t) :
  submitted (fst (execute w email key project name service params_arg)) = []
  \/ exists text,
       readFileSync w (query_path w name None) = inr text /\
       submitted (fst (execute w email key project name service params_arg))
       = [request text (effective_params params_arg)].
Proof.
  rewrite execute_spec. cbv zeta.
  destruct (auth w email key) as [e|cred]; [now left|].
  destruct (dataset_get w project cred (service_name service) "US")
    as [e|ds]; [now left|].
  destruct (readFileSync w (query_path w name None)) as [e|text];
    [now left|].
  right. now exists text.
Qed.



(** C4 (amended): for every query name whose template file cannot be read,
    [execute] fails and submits no query to the warehouse.  The credentials
    are acquired and the dataset is looked up before the template is
    loaded; when both succeed, the promise is rejected with the error of
    the file read itself, a NotFound-kind error for a missing file, and the
    calls made are exactly these three. *)
Theorem missing_template_submits_no_query
    (email key project name : string) (service : option string)
    (params_arg : option JSObject.t) (e : error) :
  readFileSync w (query_path w name None) = inl e ->
  submitted (fst (execute w email key project name service params_arg)) = []
  /\ (exists e',
        snd (execute w email key project name service params_arg)
        = Rejected e')
  /\ (forall cred ds,
        auth w email key = inr cred ->
        dataset_get w project cred (service_name service) "US" = inr ds ->
        execute w email key project name service params_arg
        = ([EvAuth email key;
            EvDatasetGet project (service_name service) "US";
            EvReadFile (query_path w name None)],
           Rejected e)).
Proof.
  intros Hread. rewrite execute_spec. cbv zeta. rewrite Hread.
  destruct (auth w email key) as [e1|cred].
  { split; [reflexivity|]. split; [now eexists|]. intros ? ? [=]. }
  destruct (dataset_get w project cred (service_name service) "US")
    as [e2|ds] eqn:Hds.
  { split; [reflexivity|]. split; [now eexists|].
    intros cred' ds' [= <-] Hds'. congruence. }
  split; [reflexivity|]. split; [now eexists|].
  intros cred' ds' [= <-] Hds'. reflexivity.
Qed.

(** C6: for every query name and every two caller parameter maps, the SQL
    text submitted is the same, namely the text of the template file; the
    caller's map travels in the [params] field of the request. *)
Theorem submitted_sql_independent_of_params
    (email key project name : string) (service : option string)
    (params1 params2 : option JSObject.t) :
  map query
    (submitted (fst (execute w email key project name service params1)))
  = map query
      (submitted (fst (execute w email key project name service params2)))
  /\ Forall (fun req =>
               readFileSync w (query_path w name None) = inr (query req) /\
               params req = effective_params params1)
            (submitted
               (fst (execute w email key project name service params1))).
Proof.
  rewrite !execute_spec. cbv zeta.
  destruct (auth w email key) as [e|cred]; [now split|].
  destruct (dataset_get w project cred (service_name service) "US")
    as [e|ds]; [now split|].
  destruct (readFileSync w (query_path w name None)) as [e|text];
    [now split|].
  split; [reflexivity|]. repeat constructor.
Qed.

(** C7 (amended): for every template, with the [# hlx:metadata] sentinel
    line or without it, [execute] produces a single statement, the whole
    text of the template file; nothing is split off and no second query is
    submitted. *)
Theorem template_submitted_whole
    (email key project name : string) (service : option string)
    (params_arg : option JSObject.t) (text : string) :
  readFileSync w (query_path w name None) = inr text ->
  map query
    (submitted (fst (execute w email key project name service params_arg)))
  = [text]
  \/ submitted (fst (execute w email key project name service params_arg))
     = [].
Proof.
  intros Hread.
  destruct (submitted_execute email key project name service params_arg)
    as [H|(text' & Hread' & H)]; [now right|].
  left. rewrite H. cbn. congruence.
Qed.

(** C8 (amended): for every caller parameter map reaching the executor,
    [maxResults] is [parseInt(params.limit, 10)], the integer that [limit]
    starts with; the map itself is passed as it is, so its [limit] and
    [offset] entries reach the warehouse uncoerced. *)
Theorem limit_parsed_params_unchanged
    (email key project name : string) (service : option string)
    (params_arg : option JSObject.t) (req : query_request) :
  In req
    (submitted (fst (execute w email key project name service params_arg)))
  ->
  maxResults req
  = ParseInt.parseInt (get_or_undefined "limit" (effective_params params_arg))
  /\ params req = effective_params params_arg
  /\ JSObject.get "limit" (params req)
     = JSObject.get "limit" (effective_params params_arg)
  /\ JSObject.get "offset" (params req)
     = JSObject.get "offset" (effective_params params_arg).
Proof.
  destruct (submitted_execute email key project name service params_arg)
    as [->|(text & _ & ->)]; [intros []|].
  intros [<-|[]]. repeat split.
Qed.


End PipelineFacts.

(** ** The action *)

Module ActionFacts.
Import JSObject JSObjectFacts Action.

Section RunExecFacts.

Context {rows meta : Type}.
Variable sv : @Services rows meta.

(** [run] hands [runExec] a map that holds the domain key. *)
Lemma run_params_domainkey (authorization : option string)
    (email key project : jsval) (data : JSObject.t) :
  get "domainkey" (run_params authorization email key project data)
  = Some (resolve_domainkey authorization data).
Proof.
  unfold run_params. rewrite !get_set_other by discriminate.
  apply get_set_same. discriminate.
Qed.

Lemma storeResult_calls (query result : string) (ctx : context) :
  executed_with (fst (storeResult sv query result ctx)) = [] /\
  Forall (fun content => content = result)
         (stored (fst (storeResult sv query result ctx))).
Proof.
  unfold storeResult.
  destruct (negb _ || negb _); [now split|].
  destruct (match rso ctx with Some so => so | None => _ end) as [site org].
  split; [reflexivity|]. now repeat constructor.
Qed.

Lemma redact_spec (bound : JSObject.t) :
  get "domainkey" (redact bound) = None /\
  (forall v, ~ In ("domainkey", v) (redact bound)) /\
  (forall k, k <> "domainkey" -> get k (redact bound) = get k bound) /\
  incl (redact bound) bound.
Proof.
  repeat split.
  - apply get_delete_same.
  - intros v. apply delete_not_in.
  - intros k Hk. now apply get_delete_other.
  - apply delete_incl.
Qed.

(** The JSON answer of [runExec] once [execute] has resolved. *)
Lemma runExec_json (params : JSObject.t) (pathname : string) (ctx : context)
    (env : envelope rows meta) :
  let query := strip_extension pathname in
  let cleaned := cleanRequestParams sv params in
  let rendered :=
    sshonify sv (results env) (description env) (redact (requestParams env))
             (responseDetails env) (responseMetadata env) (truncated env) in
  JSString.endsWith ".txt" pathname = false ->
  JSString.endsWith ".csv" pathname = false ->
  JSString.endsWith ".chart" pathname = false ->
  execute sv (param "GOOGLE_CLIENT_EMAIL" params)
             (param "GOOGLE_PRIVATE_KEY" params)
             (param "GOOGLE_PROJECT_ID" params) query cleaned = inr env ->
  snd (runExec sv params pathname ctx)
  = inr (Response rendered 200
           (with_content_type "application/json" (headers env)))
  /\ Forall (fun content => content = rendered)
            (stored (fst (runExec sv params pathname ctx)))
  /\ executed_with (fst (runExec sv params pathname ctx)) = [cleaned].
Proof.
  intros query cleaned rendered Htxt Hcsv Hchart Hexec.
  unfold runExec. rewrite Htxt. fold query cleaned.
  rewrite Hexec, Hcsv, Hchart. fold rendered.
  destruct (storeResult_calls query rendered ctx) as [Hx Hs].
  cbn [fst snd executed_with stored flat_map app].
  fold (executed_with (fst (storeResult sv query rendered ctx))).
  fold (stored (fst (storeResult sv query rendered ctx))).
  rewrite Hx. repeat split; trivial.
Qed.

End RunExecFacts.

Section RedactionFacts.

Context {rows meta : Type}.
Variable sv : @Services rows meta.
Variable st : @Deployed.Stages rows meta.

(** C5: for every bound parameter set [bound] that holds a [domainkey],
    say with value [v]: the copy that [runExec] renders into the JSON
    response, and stores, has no [domainkey] property; it is the bound
    set without that entry, every other entry unchanged.  The query
    itself was run with the bound set as it was bound: the one parameter
    map the warehouse was given is [bound], with [domainkey] at [v]; the
    entry is deleted only after [execute] has resolved.  [runExec] is the
    source's; the [execute] it calls is the deployed one as the
    specification describes it, for any binder and any warehouse; [bound]
    is what the binder gives for the cleaned request map. *)
Theorem domainkey_redacted_from_echo
    (params : JSObject.t) (pathname : string) (ctx : context)
    (bound : JSObject.t) (v : jsval)
    (results : rows) (truncated : bool) (hs : JSObject.t)
    (description responseDetails responseMetadata : meta) :
  let query := strip_extension pathname in
  let cleaned := cleanRequestParams sv params in
  let run := runExec (Deployed.services st sv) params pathname ctx in
  let echoed := redact bound in
  let rendered :=
    sshonify sv results description echoed responseDetails responseMetadata
             truncated in
  JSString.endsWith ".txt" pathname = false ->
  JSString.endsWith ".csv" pathname = false ->
  JSString.endsWith ".chart" pathname = false ->
  Deployed.bind st query cleaned = inr (description, bound) ->
  Deployed.run_queries st query bound
  = inr (results, truncated, hs, responseDetails, responseMetadata) ->
  get "domainkey" bound = Some v ->
  (get "domainkey" echoed = None /\
   (forall v', ~ In ("domainkey", v') echoed) /\
   (forall k, k <> "domainkey" -> get k echoed = get k bound) /\
   incl echoed bound)
  /\ snd run
     = inr (Response rendered 200 (with_content_type "application/json" hs))
  /\ Forall (fun content => content = rendered) (stored (fst run))
  /\ executed_with (fst run) = [cleaned]
  /\ fst (Deployed.execute st query cleaned) = [bound]
  /\ Forall (fun used => get "domainkey" used = Some v)
            (fst (Deployed.execute st query cleaned)).
Proof.
  intros query cleaned run echoed rendered Htxt Hcsv Hchart Hbind Hrun Hv.
  assert (Hexec : Deployed.execute st query cleaned
                  = ([bound],
                     inr (Envelope results truncated hs description bound
                                   responseDetails responseMetadata))).
  { unfold Deployed.execute. now rewrite Hbind, Hrun. }
  split; [apply redact_spec|].
  destruct (runExec_json (Deployed.services st sv) params pathname ctx
              (Envelope results truncated hs description bound
                        responseDetails responseMetadata)
              Htxt Hcsv Hchart) as (Hsnd & Hstored & Hcalled).
  { cbn [execute Deployed.services cleanRequestParams].
    fold cleaned. fold query. now rewrite Hexec. }
  split; [exact Hsnd|].
  split; [exact Hstored|].
  split; [exact Hcalled|].
  rewrite Hexec. cbn [fst]. split; [reflexivity|].
  now repeat constructor.
Qed.

End RedactionFacts.

Lemma domainkey_redacted_from_echo_witness :
  let params :=
    run_params (Some "Bearer t0k3n") (JStr "bot@example.com") (JStr "key")
               (JStr "helix") Sample.request_data in
  let bound :=
    [("url", JStr "example.com"); ("limit", JNum 10); ("offset", JStr "0");
     ("domainkey", JStr "t0k3n")] in
  fst (Deployed.execute Sample.stages "rum-pageviews"
         (cleanRequestParams Sample.services params)) = [bound]
  /\ redact bound
     = [("url", JStr "example.com"); ("limit", JNum 10);
        ("offset", JStr "0")]
  /\ runExec (Deployed.services Sample.stages Sample.services) params
             "rum-pageviews.json" Sample.admin_context
     = ([CallExecute (JStr "bot@example.com") (JStr "key") (JStr "helix")
           "rum-pageviews"
           [("url", JStr "example.com"); ("limit", JNum 10);
            ("domainkey", JStr "t0k3n")];
         CallPut "org/rum/site/rum-pageviews/1700000000000.json"
                 "url,limit,offset" "application/json"],
        inr (Response "url,limit,offset" 200
               [("content-type", JStr "application/json")]))
  /\ Forall (fun used => get "domainkey" used = Some (JStr "t0k3n"))
            (fst (Deployed.execute Sample.stages "rum-pageviews"
                    (cleanRequestParams Sample.services params))).
Proof.
  intros params bound.
  destruct (domainkey_redacted_from_echo Sample.services Sample.stages
              params "rum-pageviews.json" Sample.admin_context
              bound (JStr "t0k3n") [1; 2]%Z false [] tt tt tt
              eq_refl eq_refl eq_refl eq_refl eq_refl eq_refl)
    as (_ & _ & _ & _ & _ & Hused).
  split; [reflexivity|]. split; [reflexivity|]. split; [reflexivity|].
  exact Hused.
Defined.

End ActionFacts.

(** ** The properties on sample worlds *)

Module SampleFacts.
Import Sample.

Local Open Scope Z_scope.

Lemma streams_sample (name text : string) (params_arg : option JSObject.t)
    (rows : list Z) :
  file_lookup (query_path (world true files rows) name None) files
  = Some text ->
  streams (world true files rows) "bot@example.com" "key" "helix" name
          (Some "prod") params_arg (row_stream rows).
Proof.
  intros H. exists [EvAuth "bot@example.com" "key";
                    EvDatasetGet "helix" "helix_logging_prod" "US"], tt, text.
  repeat split. cbn [readFileSync world]. now rewrite H.
Qed.

Example truncation_after_eleven_rows :
  snd (execute (world true files thirteen_rows) "bot@example.com" "key"
               "helix" "rum-pageviews" (Some "prod") None)
  = Resolved (Result true (repeat 90000 11)).
Proof. vm_compute. reflexivity. Qed.

Lemma truncated_iff_estimate_crosses_budget_witness :
  exists r,
    snd (execute (world true files thirteen_rows) "bot@example.com" "key"
                 "helix" "rum-pageviews" (Some "prod") None) = Resolved r /\
    (truncated r = true <->
     exists n, (10 <= n < 13)%nat /\
               exceeds_budget (world true files thirteen_rows)
                              thirteen_rows n) /\
    (truncated r = true ->
     exists k, (10 <= k < 13)%nat /\
       exceeds_budget (world true files thirteen_rows) thirteen_rows k /\
       (forall n, (10 <= n < k)%nat ->
          ~ exceeds_budget (world true files thirteen_rows) thirteen_rows n)
       /\ results r = firstn k thirteen_rows
       /\ List.length (results r) = k) /\
    (forall k, (10 <= k < 13)%nat ->
       exceeds_budget (world true files thirteen_rows) thirteen_rows k ->
       (List.length (results r) <= k)%nat) /\
    (truncated r = false -> results r = thirteen_rows) /\
    (forall m, (m <= 13)%nat ->
       h_avgsize (after_rows (world true files thirteen_rows)
                             (firstn m thirteen_rows)) =
       if (m <=? 10)%nat then 0%Q
       else estimate (world true files thirteen_rows) thirteen_rows).
Proof.
  apply (truncated_iff_estimate_crosses_budget
           (world true files thirteen_rows) "bot@example.com" "key" "helix"
           "rum-pageviews" (Some "prod") None thirteen_rows).
  apply (streams_sample "rum-pageviews" pageviews_sql). reflexivity.
Defined.

(** Three rows of five million bytes each are all accepted. *)
Lemma first_ten_rows_always_accepted_witness :
  snd (execute (world true files (repeat 5000000 3)) "bot@example.com"
               "key" "helix" "rum-pageviews" (Some "prod") None)
  = Resolved (Result false (repeat 5000000 3)).
Proof.
  apply (first_ten_rows_always_accepted
           (world true files (repeat 5000000 3)) "bot@example.com" "key"
           "helix" "rum-pageviews" (Some "prod") None (repeat 5000000 3)).
  - apply (streams_sample "rum-pageviews" pageviews_sql). reflexivity.
  - simpl. lia.
Defined.

(** C4, as stated, fails: for the unknown query name [nope] the
    credentials are acquired and the dataset is looked up before the
    template load fails. *)
Lemma missing_template_reached_after_warehouse_calls :
  readFileSync (world true files []) (query_path (world true files []) "nope" None)
  = inl (enoent "/app/src/queries/nope.sql")
  /\ fst (execute (world true files []) "bot@example.com" "key" "helix"
                  "nope" (Some "prod") None)
     = [EvAuth "bot@example.com" "key";
        EvDatasetGet "helix" "helix_logging_prod" "US";
        EvReadFile "/app/src/queries/nope.sql"]
  /\ filter is_warehouse_call
       (fst (execute (world true files []) "bot@example.com" "key" "helix"
                     "nope" (Some "prod") None))
     <> [].
Proof. repeat split. discriminate. Qed.

(** With credentials that are refused the failure is not of the NotFound
    kind, and the template is not looked for. *)
Example unknown_name_with_refused_credentials :
  execute (world false files []) "bot@example.com" "key" "helix" "nope"
          (Some "prod") None
  = ([EvAuth "bot@example.com" "key"],
     Rejected (new_Error "Unable to execute Google Query: invalid_grant")).
Proof. reflexivity. Qed.

Lemma missing_template_submits_no_query_witness :
  submitted (fst (execute (world true files []) "bot@example.com" "key"
                          "helix" "nope" (Some "prod") None)) = []
  /\ snd (execute (world true files []) "bot@example.com" "key" "helix"
                  "nope" (Some "prod") None)
     = Rejected (enoent "/app/src/queries/nope.sql")
  /\ is_not_found (enoent "/app/src/queries/nope.sql") = true.
Proof.
  destruct (missing_template_submits_no_query
              (world true files []) "bot@example.com" "key" "helix" "nope"
              (Some "prod") None (enoent "/app/src/queries/nope.sql")
              eq_refl) as (Hnone & _ & Hcalls).
  split; [exact Hnone|]. split; [|reflexivity].
  now rewrite (Hcalls tt tt eq_refl eq_refl).
Defined.

Lemma submitted_sql_independent_of_params_witness :
  map query
    (submitted (fst (execute (world true files []) "bot@example.com" "key"
                       "helix" "rum-pageviews" (Some "prod")
                       (Some [("url", JStr "x' OR 1=1 --")]))))
  = map query
      (submitted (fst (execute (world true files []) "bot@example.com" "key"
                         "helix" "rum-pageviews" (Some "prod") None))).
Proof.
  apply (submitted_sql_independent_of_params (world true files [])).
Defined.

(** C7, as stated, fails: the template with the sentinel line is submitted
    as one statement, the sentinel and both queries in it. *)
Lemma sentinel_template_submitted_unsplit :
  In "# hlx:metadata"%string (JSString.split JSString.LF attribution_sql)
  /\ map query
       (submitted (fst (execute (world true files []) "bot@example.com"
                          "key" "helix" "rum-attribution" (Some "prod")
                          None)))
     = [attribution_sql].
Proof. split; [vm_compute; tauto | reflexivity]. Qed.

Lemma template_submitted_whole_witness :
  map query
    (submitted (fst (execute (world true files []) "bot@example.com" "key"
                       "helix" "rum-attribution" (Some "prod") None)))
  = [attribution_sql]
  \/ submitted (fst (execute (world true files []) "bot@example.com" "key"
                       "helix" "rum-attribution" (Some "prod") None))
     = [].
Proof.
  apply (template_submitted_whole (world true files [])). reflexivity.
Defined.

(** C8, as stated, fails: [offset] reaches the warehouse as the string it
    came as, and so does [limit]; only [maxResults] is an integer. *)
Lemma offset_reaches_warehouse_uncoerced :
  submitted (fst (execute (world true files []) "bot@example.com" "key"
                    "helix" "rum-pageviews" (Some "prod")
                    (Some [("limit", JStr "10"); ("offset", JStr "5")])))
  = [QueryRequest pageviews_sql (Some 10)
       [("limit", JStr "10"); ("offset", JStr "5")]]
  /\ JStr "5" <> JNum 5.
Proof. split; [reflexivity | discriminate]. Qed.

(** [parseInt] reads the leading integer and gives [NaN] without one. *)
Example parseInt_examples :
  ParseInt.parseInt (JStr "12abc") = Some 12 /\
  ParseInt.parseInt (JStr "  -7") = Some (-7) /\
  ParseInt.parseInt (JStr "abc") = None /\
  ParseInt.parseInt JUndefined = None /\
  ParseInt.parseInt (JNum 100) = Some 100.
Proof. repeat split. Qed.

Lemma limit_parsed_params_unchanged_witness :
  maxResults (QueryRequest pageviews_sql (Some 10)
                [("limit", JStr "10"); ("offset", JStr "5")])
  = ParseInt.parseInt (JStr "10")
  /\ JSObject.get "offset" [("limit", JStr "10"); ("offset", JStr "5")]
     = Some (JStr "5").
Proof.
  destruct (limit_parsed_params_unchanged
              (world true files []) "bot@example.com" "key" "helix"
              "rum-pageviews" (Some "prod")
              (Some [("limit", JStr "10"); ("offset", JStr "5")])
              (QueryRequest pageviews_sql (Some 10)
                 [("limit", JStr "10"); ("offset", JStr "5")])
              (or_introl eq_refl)) as (Hmax & _ & _ & Hoffset).
  split; [exact Hmax | exact Hoffset].
Defined.



End SampleFacts.

(** * Properties beyond the claims *)

(** ** The header parser *)

Module HeaderMore.
Import JSString JSStringFacts JSObject JSObjectFacts.

Lemma keys_update (k : string) (v : jsval) (o : t) :
  keys (update k v o) = keys o.
Proof.
  unfold keys. induction o as [|[k' v'] o IH]; [reflexivity|].
  cbn [update]. destruct (String.eqb_spec k' k) as [->|Hne]; [reflexivity|].
  cbn [map fst]. now rewrite IH.
Qed.

Lemma keys_set (k : string) (v : jsval) (o : t) :
  keys (set k v o) = keys o \/
  (k <> "__proto__" /\ ~ In k (keys o) /\
   Permutation (keys (set k v o)) (keys o ++ [k])).
Proof.
  unfold set. destruct (String.eqb_spec k "__proto__") as [->|Hp];
    [now left|].
  destruct (has k o) eqn:H.
  - left. unfold define. rewrite H. apply keys_update.
  - right. apply has_false_iff, get_none_iff in H.
    repeat split; trivial.
    pose proof (set_fresh_perm k v o Hp H) as P. unfold set in P.
    apply String.eqb_neq in Hp. rewrite Hp in P.
    unfold keys. rewrite P, map_app. reflexivity.
Qed.

Lemma NoDup_keys_set (k : string) (v : jsval) (o : t) :
  NoDup (keys o) -> NoDup (keys (set k v o)).
Proof.
  intros H. destruct (keys_set k v o) as [->|(_ & Hk & P)]; trivial.
  apply Permutation_NoDup with (l := k :: keys o).
  - rewrite P. apply Permutation_cons_append.
  - now constructor.
Qed.

Lemma In_keys_set (k k' : string) (v : jsval) (o : t) :
  In k' (keys (set k v o)) <->
  In k' (keys o) \/ (k' = k /\ k <> "__proto__").
Proof.
  destruct (keys_set k v o) as [E|(Hp & Hk & P)].
  - split; [rewrite E; now left|]. intros [H|[-> Hp]]; [now rewrite E|].
    destruct (in_dec string_dec k (keys (set k v o))) as [|Hn]; trivial.
    apply get_none_iff in Hn. rewrite get_set_same in Hn by assumption.
    discriminate.
  - split.
    + intros H. apply (Permutation_in _ P), in_app_iff in H.
      cbn [In] in H. intuition.
    + intros H. apply (Permutation_in _ (Permutation_sym P)), in_app_iff.
      cbn [In]. intuition.
Qed.

(** What the fold of [getExtraParameters] keeps: the names stay distinct,
    and each one is an old name or the key of a line. *)
Lemma collected_keys (good : list string) (acc : t) :
  NoDup (keys acc) ->
  NoDup (keys (fold_left collect (map key_value good) acc)) /\
  forall k, In k (keys (fold_left collect (map key_value good) acc)) <->
            In k (keys acc) \/
            (k <> "__proto__" /\ exists e, In e good /\ header_key e = k).
Proof.
  revert acc. induction good as [|e good IH]; intros acc Hnd.
  - split; trivial. intros k. cbn. split; [now left|].
    intros [H|(_ & e & [] & _)]; trivial.
  - cbn [map fold_left]. rewrite collect_entry.
    destruct (IH _ (NoDup_keys_set (header_key e) (header_value e) acc Hnd))
      as [Hnd' Hin].
    split; trivial. intros k. rewrite Hin, In_keys_set. cbn [In]. split.
    + intros [[H|[-> Hp]]|(Hp & e' & He' & Hk)]; eauto 7.
    + intros [H|(Hp & e' & [<-|He'] & Hk)]; subst; eauto 7.
Qed.

Lemma collected_lookup (good : list string) (acc : t) (k : string) :
  k <> "__proto__" ->
  get k (fold_left collect (map key_value good) acc) =
  fold_left (fun found e =>
               if String.eqb (header_key e) k then Some (header_value e)
               else found)
            good (get k acc).
Proof.
  intros Hk. revert acc. induction good as [|e good IH]; intros acc;
    [reflexivity|].
  cbn [map fold_left]. rewrite IH, collect_entry. f_equal.
  destruct (String.eqb_spec (header_key e) k) as [->|Hne].
  - now apply get_set_same.
  - apply get_set_other. congruence.
Qed.

Lemma collected_proto (good : list string) (acc : t) :
  get "__proto__" (fold_left collect (map key_value good) acc)
  = get "__proto__" acc.
Proof.
  revert acc. induction good as [|e good IH]; intros acc; [reflexivity|].
  cbn [map fold_left]. rewrite IH, collect_entry. unfold set.
  destruct (String.eqb_spec (header_key e) "__proto__") as [|Hne]; trivial.
  apply get_define_other. congruence.
Qed.

(** X1: for every template text and every name other than [__proto__],
    the value [getExtraParameters] holds under the name is the value of the
    last line of the text that begins with the marker, contains a colon and
    carries that name as its key, and there is no value when no line does;
    the name [__proto__] never gets an entry. *)
Theorem lookup_is_last_declaration (body k : string) :
  (k <> "__proto__" ->
   get k (getExtraParameters body) = last_value k (split LF body))
  /\ get "__proto__" (getExtraParameters body) = None.
Proof.
  rewrite getExtraParameters_lines. split.
  - intros Hk. now rewrite collected_lookup.
  - now rewrite collected_proto.
Qed.

Lemma lookup_is_last_declaration_witness :
  get "limit"
    (getExtraParameters
       (join LF ["--- limit: 100"; "SELECT 1"; "--- limit: 30"; "--- x: y"]))
  = Some (JStr "30").
Proof.
  rewrite (proj1 (lookup_is_last_declaration
                    (join LF ["--- limit: 100"; "SELECT 1"; "--- limit: 30";
                              "--- x: y"]) "limit"));
    [reflexivity | discriminate].
Defined.

(** X2: for every template text, the names of the object that
    [getExtraParameters] returns are pairwise distinct, and a name is among
    them exactly when it is not [__proto__] and is the key of some line of
    the text that begins with [---] and contains a colon. *)
Theorem declared_keys (body : string) :
  NoDup (keys (getExtraParameters body)) /\
  forall k, In k (keys (getExtraParameters body)) <->
            k <> "__proto__" /\
            exists e, In e (split LF body) /\ startsWith "---" e = true /\
                      occurs ":" e = true /\ header_key e = k.
Proof.
  rewrite getExtraParameters_lines.
  destruct (collected_keys (metadata_lines (split LF body)) [])
    as [Hnd Hin]; [constructor|].
  split; trivial. intros k. rewrite Hin. cbn [keys map In]. split.
  - intros [[]|(Hp & e & He & Hk)]. split; trivial.
    apply metadata_lines_spec in He as (? & ? & ?). eauto 6.
  - intros (Hp & e & He & Hm & Hc & Hk). right. split; trivial.
    exists e. split; trivial. apply metadata_lines_spec. auto.
Qed.

Lemma prefix_app_r (p e b : string) :
  prefix p e = true -> prefix p (e ++ b) = true.
Proof.
  revert e. induction p as [|a p IH]; intros e H; [apply prefix_nil|].
  destruct e as [|c e]; [discriminate|].
  cbn [append]. rewrite prefix_cons in *.
  apply andb_true_iff in H as [Ha Hp]. rewrite Ha. now apply IH.
Qed.

Lemma prefix_occurs (p s : string) : prefix p s = true -> occurs p s = true.
Proof. intros H. destruct s; cbn [occurs]; now rewrite H. Qed.

(** The first piece of a text is its beginning, and every piece is a part
    of the text. *)
Lemma split_LF_head (s p : string) (ps : list string) :
  split LF s = p :: ps -> exists b, s = (p ++ b)%string.
Proof.
  revert p ps. induction s as [|c s IH]; intros p ps H.
  - injection H as <- _. now exists "".
  - rewrite split_LF_cons in H.
    destruct (Ascii.eqb (ascii_of_nat 10) c).
    + injection H as <- _. now exists (String c s).
    + destruct (split LF s) as [|p0 ps0] eqn:E;
        [now apply split_from_nonempty in E|].
      injection H as <- _. destruct (IH _ _ eq_refl) as [b ->].
      now exists b.
Qed.

Lemma split_LF_part (s e : string) :
  In e (split LF s) -> exists a b, s = (a ++ e ++ b)%string.
Proof.
  revert e. induction s as [|c s IH]; intros e H.
  - destruct H as [<-|[]]. now exists "", "".
  - rewrite split_LF_cons in H.
    destruct (Ascii.eqb (ascii_of_nat 10) c).
    + destruct H as [<-|H]; [now exists "", (String c s)|].
      destruct (IH _ H) as (a & b & ->). now exists (String c a), b.
    + destruct (split LF s) as [|p0 ps0] eqn:E;
        [now apply split_from_nonempty in E|].
      destruct H as [<-|H].
      * destruct (split_LF_head _ _ _ E) as [b ->]. now exists "", b.
      * destruct (IH e (or_intror H)) as (a & b & ->).
        now exists (String c a), b.
Qed.

Lemma marker_line_occurs (s e p : string) :
  In e (split LF s) -> prefix p e = true -> occurs p s = true.
Proof.
  intros H Hp. destruct (split_LF_part _ _ H) as (a & b & ->).
  apply occurs_app_r, prefix_occurs. now apply prefix_app_r.
Qed.

Lemma filter_none {A} (f : A -> bool) (l : list A) :
  (forall x, In x l -> f x = false) -> filter f l = [].
Proof.
  induction l as [|x l IH]; intros H; [reflexivity|]. cbn [filter].
  rewrite (H x) by now left. apply IH. intros y Hy. apply H. now right.
Qed.

(** X3: a template text in which the marker [---] occurs nowhere declares
    nothing: [getExtraParameters] returns the empty object, whatever colons
    the text holds. *)
Theorem no_marker_no_parameters (body : string) :
  occurs "---" body = false -> getExtraParameters body = [].
Proof.
  intros H. rewrite getExtraParameters_lines. unfold metadata_lines.
  rewrite (filter_none has_marker); [reflexivity|].
  intros e He. unfold has_marker, startsWith.
  destruct (prefix "---" e) eqn:E; trivial.
  rewrite (marker_line_occurs _ _ _ He E) in H. discriminate.
Qed.

Lemma no_marker_no_parameters_witness :
  getExtraParameters
    (join LF ["SELECT a -- note: b"; "-- limit: 3"; "FROM t"]) = [].
Proof.
  apply (no_marker_no_parameters
           (join LF ["SELECT a -- note: b"; "-- limit: 3"; "FROM t"])).
  reflexivity.
Defined.

(** A text of one line that begins with the marker and contains a colon. *)
Lemma single_metadata_line (e : string) :
  is_line e = true -> has_marker e = true -> occurs ":" e = true ->
  getExtraParameters e = set (header_key e) (header_value e) [].
Proof.
  intros Hl Hm Hc. unfold is_line in Hl. apply negb_true_iff in Hl.
  rewrite getExtraParameters_lines, (split_LF_line _ Hl).
  unfold metadata_lines. cbn [filter]. rewrite Hm. cbn [filter].
  rewrite (proj2 (has_colon_iff e Hm) Hc). reflexivity.
Qed.

Lemma plain_spec (s : string) :
  plain s = true <-> occurs ": " s = false /\ occurs LF s = false.
Proof.
  unfold plain, is_line. now rewrite andb_true_iff, !negb_true_iff.
Qed.

(** X5: the key of a metadata line starts at the fifth code unit whatever
    the fourth one is: the space after the marker is not checked, so
    [---k: v] and [--- k: v] declare the same entry and a line written
    [---key: v] declares [ey]. *)
Theorem fourth_code_unit_is_dropped (c : ascii) (k v : string) :
  is_line (String c "") = true -> plain k = true -> plain v = true ->
  getExtraParameters ("---" ++ String c (k ++ ": " ++ v))
  = set k (JStr v) [].
Proof.
  intros Hc Hk Hv. apply plain_spec in Hk as [Hk Lk], Hv as [Hv Lv].
  unfold is_line in Hc. apply negb_true_iff in Hc.
  rewrite occurs_LF_cons in Hc. apply orb_false_iff in Hc as [Hc _].
  rewrite single_metadata_line.
  - unfold header_key, header_value, key_value.
    change (substring 4 ("---" ++ String c (k ++ ": " ++ v)))
      with (k ++ ": " ++ v)%string.
    now rewrite split_colon_space_first, split_colon_space_none.
  - unfold is_line. apply negb_true_iff.
    change ("---" ++ String c (k ++ ": " ++ v))%string
      with ("---" ++ String c "" ++ k ++ ": " ++ v)%string.
    rewrite !occurs_LF_app, (occurs_LF_cons c ""), Hc, Lk, Lv. reflexivity.
  - apply prefix_self_app.
  - change ("---" ++ String c (k ++ ": " ++ v))%string
      with (("---" ++ String c "") ++ k ++ ":" ++ (" " ++ v))%string.
    apply occurs_app_r, occurs_app_r, occurs_self_app.
Qed.

Lemma fourth_code_unit_is_dropped_witness :
  getExtraParameters "---key: value" = [("ey", JStr "value")].
Proof.
  apply (fourth_code_unit_is_dropped "k" "ey" "value"); reflexivity.
Defined.

(** X6: a line that begins with [--- ] and has a colon but nowhere the
    delimiter [': '] declares its whole remainder as the key, with the
    value [undefined]: [--- limit:100] gives the name [limit:100]. *)
Theorem colon_without_space_gives_undefined (rest : string) :
  occurs ":" rest = true -> plain rest = true ->
  getExtraParameters ("--- " ++ rest) = set rest JUndefined [].
Proof.
  intros Hc Hp. apply plain_spec in Hp as [Hd Hl].
  rewrite single_metadata_line.
  - unfold header_key, header_value, key_value.
    change (substring 4 ("--- " ++ rest)) with rest.
    now rewrite split_colon_space_none.
  - unfold is_line. apply negb_true_iff.
    now rewrite occurs_LF_app, Hl.
  - change ("--- " ++ rest)%string with ("---" ++ (" " ++ rest))%string.
    apply prefix_self_app.
  - now apply occurs_app_r.
Qed.

Lemma colon_without_space_gives_undefined_witness :
  getExtraParameters "--- limit:100" = [("limit:100", JUndefined)].
Proof.
  apply (colon_without_space_gives_undefined "limit:100"); reflexivity.
Defined.

(** The lines of a rendered header, as the parser reads them. *)
Lemma header_entry_metadata_line (k v : string) :
  plain k = true -> plain v = true ->
  header_entry (metadata_line k v) = (k, JStr v).
Proof.
  intros Hk Hv. apply plain_spec in Hk as [Hk _], Hv as [Hv _].
  unfold header_entry, header_key, header_value, key_value, metadata_line.
  change (substring 4 ("--- " ++ k ++ ": " ++ v)) with (k ++ ": " ++ v)%string.
  now rewrite split_colon_space_first, split_colon_space_none.
Qed.

Lemma is_line_metadata_line (k v : string) :
  plain k = true -> plain v = true -> is_line (metadata_line k v) = true.
Proof.
  intros Hk Hv. apply plain_spec in Hk as [_ Lk], Hv as [_ Lv].
  unfold is_line, metadata_line. apply negb_true_iff.
  now rewrite !occurs_LF_app, Lk, Lv.
Qed.

Lemma metadata_lines_render_header (entries : list (string * string)) :
  metadata_lines (render_header entries) = render_header entries.
Proof.
  induction entries as [|[k v] entries IH]; [reflexivity|].
  change (render_header ((k, v) :: entries))
    with ([metadata_line k v] ++ render_header entries).
  now rewrite metadata_lines_app, metadata_line_passes, IH.
Qed.

(** X4: a header written in the file format is read back as written.  For
    entries with pairwise distinct names, none an array index or
    [__proto__], names and values on one line and free of [': '], the text
    made of one [--- k: v] line per entry followed by SQL lines that do
    not begin with the marker is parsed into exactly these entries, in
    order, each value a string. *)
Theorem header_round_trip (entries : list (string * string))
    (sql : list string) :
  NoDup (map fst entries) ->
  forallb (fun kv => ordinary_key (fst kv) && plain (fst kv) && plain (snd kv))
          entries = true ->
  forallb (fun e => is_line e && negb (has_marker e)) sql = true ->
  getExtraParameters (join LF (render_header entries ++ sql))
  = map (fun kv => (fst kv, JStr (snd kv))) entries.
Proof.
  intros Hnd He Hsql.
  rewrite forallb_forall in He, Hsql.
  assert (Hlines : forallb is_line (render_header entries ++ sql) = true).
  { apply forallb_forall. intros e Hin. apply in_app_iff in Hin as [Hin|Hin].
    - unfold render_header in Hin. apply in_map_iff in Hin as ([k v] & <- & Hkv).
      specialize (He _ Hkv). cbn [fst snd] in *.
      apply andb_true_iff in He as [He Hv].
      apply andb_true_iff in He as [_ Hk]. now apply is_line_metadata_line.
    - specialize (Hsql _ Hin). now apply andb_true_iff in Hsql as [? _]. }
  assert (Hnone : metadata_lines sql = []).
  { unfold metadata_lines. rewrite (filter_none has_marker); trivial.
    intros e Hin. specialize (Hsql _ Hin).
    apply andb_true_iff in Hsql as [_ H]. now apply negb_true_iff in H. }
  assert (Hentries : map header_entry (render_header entries)
                     = map (fun kv => (fst kv, JStr (snd kv))) entries).
  { unfold render_header. rewrite map_map. apply map_ext_in.
    intros [k v] Hkv. specialize (He _ Hkv). cbn [fst snd] in *.
    apply andb_true_iff in He as [He Hv].
    apply andb_true_iff in He as [_ Hk]. now apply header_entry_metadata_line. }
  assert (Hkeys : map header_key (render_header entries) = map fst entries).
  { change header_key with (fun e => fst (header_entry e)).
    rewrite <- (map_map header_entry fst), Hentries, map_map.
    reflexivity. }
  rewrite getExtraParameters_lines, lines_of_join by assumption.
  rewrite metadata_lines_app, Hnone, app_nil_r, metadata_lines_render_header.
  rewrite collect_fresh, Hentries; trivial.
  - now rewrite Hkeys.
  - rewrite Hkeys. apply forallb_forall. intros k Hk.
    apply in_map_iff in Hk as ([k' v] & <- & Hkv).
    specialize (He _ Hkv). cbn [fst snd] in *.
    apply andb_true_iff in He as [He _]. now apply andb_true_iff in He as [? _].
Qed.

Lemma header_round_trip_witness :
  getExtraParameters
    (join LF (render_header [("url", "-"); ("limit", "100"); ("offset", "0")]
              ++ ["SELECT url FROM pageviews(@url) -- top: pages";
                  "LIMIT @limit"]))
  = [("url", JStr "-"); ("limit", JStr "100"); ("offset", JStr "0")].
Proof.
  apply (header_round_trip
           [("url", "-"); ("limit", "100"); ("offset", "0")]
           ["SELECT url FROM pageviews(@url) -- top: pages"; "LIMIT @limit"]).
  - repeat constructor; simpl; intuition discriminate.
  - reflexivity.
  - reflexivity.
Defined.

End HeaderMore.

(** ** The stream handlers *)

Section StreamMore.

Local Open Scope nat_scope.

Context {credentials dataset row : Type}.
Variable w : @World credentials dataset row.

(** What [spaceleft] and the rows held become on a [data] event depends on
    the rows held and on [avgsize], not on the promise. *)
Lemma on_data_store (r : row) (h h' : handlers) :
  h_results h = h_results h' -> h_avgsize h = h_avgsize h' ->
  h_results (on_data w r h) = h_results (on_data w r h') /\
  h_avgsize (on_data w r h) = h_avgsize (on_data w r h').
Proof.
  intros Hr Ha. unfold on_data, spaceleft. rewrite Hr, Ha.
  now destruct (Qle_bool _ _).
Qed.

Lemma store_only_data (evs : list (stream_event row)) (h h' : handlers) :
  h_results h = h_results h' -> h_avgsize h = h_avgsize h' ->
  h_results (fold_left (handle w) evs h)
  = h_results (fold_left (handle w) (map Data (data_rows evs)) h') /\
  h_avgsize (fold_left (handle w) evs h)
  = h_avgsize (fold_left (handle w) (map Data (data_rows evs)) h').
Proof.
  revert h h'. induction evs as [|ev evs IH]; intros h h' Hr Ha; [now split|].
  destruct ev as [r|e|]; cbn [fold_left data_rows flat_map app map handle].
  - destruct (on_data_store r h h' Hr Ha). now apply IH.
  - now apply IH.
  - now apply IH.
Qed.

Lemma results_of_consume (evs : list (stream_event row)) :
  h_results (consume w evs) = h_results (after_rows w (data_rows evs)).
Proof. now apply store_only_data. Qed.

Lemma avgsize_of_consume (evs : list (stream_event row)) :
  h_avgsize (consume w evs) = h_avgsize (after_rows w (data_rows evs)).
Proof. now apply store_only_data. Qed.

(** A settled promise is not settled again. *)
Lemma handle_settled (h : handlers) (ev : stream_event row) :
  h_promise h <> Pending -> h_promise (handle w h ev) = h_promise h.
Proof.
  intros H. destruct ev as [r|e|]; cbn [handle].
  - unfold on_data. destruct (spaceleft w h) as [a ok].
    destruct ok; cbn [h_promise]; trivial. now destruct (h_promise h).
  - cbn. now destruct (h_promise h).
  - cbn. now destruct (h_promise h).
Qed.

Lemma settled_is_final (evs : list (stream_event row)) (h : handlers) :
  h_promise h <> Pending ->
  h_promise (fold_left (handle w) evs h) = h_promise h.
Proof.
  revert h. induction evs as [|ev evs IH]; intros h H; [reflexivity|].
  cbn [fold_left]. rewrite IH; rewrite handle_settled; trivial.
Qed.

(** The two forms the handlers take after rows. *)
Lemma after_rows_cases (rows : list row) :
  ((forall n, 10 <= n < List.length rows -> crosses w rows n = false) /\
   after_rows w rows =
   Handlers rows
     (if List.length rows <=? 10 then 0%Q else estimate w rows) Pending)
  \/
  (exists k, 10 <= k < List.length rows /\ crosses w rows k = true /\
     (forall n, 10 <= n < k -> crosses w rows n = false) /\
     after_rows w rows =
     Handlers (firstn k rows) (estimate w rows)
       (Resolved (Result true (firstn k rows)))).
Proof.
  destruct (after_rows_spec w rows) as [Ha Hb].
  destruct (least_true (crosses w rows) 10 (List.length rows))
    as [Hno|(k & Hk & Hc & Hl)].
  - left. split; trivial. now apply Ha.
  - right. exists k. repeat split; trivial; try lia. now apply Hb.
Qed.

(** X9: once truncation has resolved the promise, nothing that the stream
    emits afterwards, rows, an error or [end], changes the promise or the
    rows held: the array the caller received is not appended to again. *)
Theorem truncation_is_final (rows : list row)
    (evs : list (stream_event row)) (r : result) :
  h_promise (after_rows w rows) = Resolved r ->
  truncated r = true /\
  h_promise (consume w (map Data rows ++ evs)) = Resolved r /\
  h_results (consume w (map Data rows ++ evs)) = results r.
Proof.
  intros H.
  destruct (after_rows_cases rows) as [[_ E]|(k & Hk & Hc & Hl & E)];
    rewrite E in H; cbn [h_promise] in H; [discriminate|].
  injection H as <-. split; [reflexivity|]. split.
  - unfold consume. rewrite fold_left_app. fold (consume w (map Data rows)).
    fold (after_rows w rows). rewrite settled_is_final; rewrite E; easy.
  - rewrite results_of_consume. unfold data_rows.
    rewrite flat_map_app. fold (data_rows (map Data rows)).
    fold (data_rows evs).
    assert (Hd : data_rows (map Data rows) = rows).
    { clear. induction rows as [|x l IH]; [reflexivity|].
      cbn. f_equal. exact IH. }
    rewrite Hd.
    destruct (after_rows_spec w (rows ++ data_rows evs)) as [_ Hb].
    rewrite (Hb k).
    + cbn [h_results results]. rewrite firstn_app.
      replace (k - List.length rows) with 0 by lia.
      now rewrite firstn_O, app_nil_r.
    + rewrite length_app. lia.
    + rewrite crosses_app by lia. exact Hc.
    + intros n Hn. rewrite crosses_app by lia. now apply Hl.
Qed.

Lemma data_rows_app (a b : list (stream_event row)) :
  data_rows (a ++ b) = data_rows a ++ data_rows b.
Proof. apply flat_map_app. Qed.

Lemma data_rows_map (rows : list row) : data_rows (map Data rows) = rows.
Proof.
  induction rows as [|x l IH]; [reflexivity|]. cbn. f_equal. exact IH.
Qed.

(** The rows held are the first of the rows received. *)
Lemma held_is_prefix (evs : list (stream_event row)) :
  exists n, n <= List.length (data_rows evs) /\
            h_results (consume w evs) = firstn n (data_rows evs).
Proof.
  rewrite results_of_consume.
  destruct (after_rows_cases (data_rows evs))
    as [[_ E]|(k & Hk & _ & _ & E)]; rewrite E; cbn [h_results].
  - exists (List.length (data_rows evs)). split; trivial.
    now rewrite firstn_all.
  - exists k. split; [lia | reflexivity].
Qed.

(** A row is refused only when ten rows at least have been received. *)
Lemma refusal_needs_ten (evs : list (stream_event row)) :
  snd (spaceleft w (consume w evs)) = false ->
  10 <= List.length (data_rows evs).
Proof.
  unfold spaceleft. cbn [snd].
  rewrite results_of_consume, avgsize_of_consume.
  destruct (after_rows_cases (data_rows evs))
    as [[_ E]|(k & Hk & _ & _ & E)]; rewrite E;
    cbn [h_results h_avgsize]; [|lia].
  destruct (le_lt_dec 10 (List.length (data_rows evs))) as [|Hlt]; trivial.
  replace (List.length (data_rows evs) =? 10) with false
    by (symmetry; apply Nat.eqb_neq; lia).
  replace (List.length (data_rows evs) <=? 10) with true
    by (symmetry; apply Nat.leb_le; lia).
  now rewrite zero_within_budget.
Qed.

Lemma firstn_app_more {A} (n : nat) (l more : list A) :
  exists m, firstn n l = firstn m (l ++ more).
Proof.
  destruct (le_lt_dec n (List.length l)) as [Hle|Hgt].
  - exists n. rewrite firstn_app. replace (n - List.length l) with 0 by lia.
    now rewrite firstn_O, app_nil_r.
  - exists (List.length l). rewrite firstn_all2 by lia.
    rewrite firstn_app, Nat.sub_diag, firstn_all, firstn_O.
    now rewrite app_nil_r.
Qed.

Lemma explained_more (evs more : list (stream_event row)) (p : promise) :
  p <> Pending -> explained evs p -> explained (evs ++ more) p.
Proof.
  intros Hp H. destruct p as [|r|e]; [congruence| |].
  - destruct H as ((n & Hn) & Hend & Htr). cbn [explained].
    rewrite data_rows_app, length_app. repeat split.
    + rewrite Hn. apply firstn_app_more.
    + intros Hf. apply in_or_app. left. now apply Hend.
    + intros Ht. specialize (Htr Ht). lia.
  - cbn [explained] in *. apply in_or_app. now left.
Qed.

(** X10: whatever a stream emits, in whatever order, the promise of the
    handlers is explained by it: a result holds the first rows received,
    in the order received; an untruncated result means that [end] was
    emitted, a truncated one that more than ten rows were received; a
    rejection carries an error that the stream emitted; and the promise is
    pending only if the stream emitted neither [end] nor an error. *)
Theorem settlement_is_explained (evs : list (stream_event row)) :
  explained evs (h_promise (consume w evs)).
Proof.
  induction evs as [|ev evs IH] using rev_ind.
  - cbn. split; [tauto | intros e []].
  - unfold consume. rewrite fold_left_app. cbn [fold_left].
    fold (consume w evs).
    destruct (h_promise (consume w evs)) eqn:Hp.
    + (* pending *)
      destruct IH as [Hend Herr].
      destruct ev as [r|e|]; cbn [handle].
      * unfold on_data.
        destruct (spaceleft w (consume w evs)) as [a ok] eqn:Hs.
        destruct ok; cbn [h_promise]; rewrite Hp; cbn [settle explained].
        -- split.
           ++ intros H. apply in_app_iff in H as [H|[H|[]]];
                [tauto | discriminate].
           ++ intros e H. apply in_app_iff in H as [H|[H|[]]];
                [now apply (Herr e) | discriminate].
        -- cbn [results truncated]. repeat split; [|discriminate|].
           ++ destruct (held_is_prefix evs) as (n & _ & ->).
              rewrite data_rows_app. apply firstn_app_more.
           ++ intros _. rewrite data_rows_app, length_app. cbn.
              assert (10 <= List.length (data_rows evs)); [|lia].
              apply refusal_needs_ten. now rewrite Hs.
      * unfold on_error. cbn [h_promise]. rewrite Hp. cbn.
        apply in_or_app. right. now left.
      * unfold on_end. cbn [h_promise]. rewrite Hp. cbn [settle explained].
        cbn [results truncated]. repeat split; [| |discriminate].
        -- destruct (held_is_prefix evs) as (n & _ & ->).
           rewrite data_rows_app. apply firstn_app_more.
        -- intros _. apply in_or_app. right. now left.
    + rewrite handle_settled by (rewrite Hp; discriminate).
      rewrite Hp. apply explained_more; [discriminate | exact IH].
    + rewrite handle_settled by (rewrite Hp; discriminate).
      rewrite Hp. apply explained_more; [discriminate | exact IH].
Qed.

(** X8: when the stream fails after some rows, the rows are dropped and
    [execute] rejects with the error of the stream, unwrapped, provided no
    row arrived with the estimate over the budget; if one did, the
    truncated result stands and the error is swallowed.  What the stream
    emits after the error changes nothing. *)
Theorem stream_error_after_rows
    (email key project name : string) (service : option string)
    (params_arg : option JSObject.t) (rows : list row) (e : error)
    (rest : list (stream_event row)) :
  streams w email key project name service params_arg
          (map Data rows ++ StreamError e :: rest) ->
  ((forall n, 10 <= n < List.length rows -> ~ exceeds_budget w rows n) ->
   snd (execute w email key project name service params_arg) = Rejected e)
  /\ (forall k, 10 <= k < List.length rows -> exceeds_budget w rows k ->
        (forall n, 10 <= n < k -> ~ exceeds_budget w rows n) ->
        snd (execute w email key project name service params_arg)
        = Resolved (Result true (firstn k rows))).
Proof.
  intros Hs. rewrite (execute_streams _ _ _ _ _ _ _ _ Hs).
  unfold consume. rewrite fold_left_app. fold (consume w (map Data rows)).
  fold (after_rows w rows). cbn [fold_left handle].
  destruct (after_rows_spec w rows) as [Ha Hb]. split.
  - intros Hno.
    rewrite Ha by (intros n Hn; apply crosses_false_iff; now apply Hno).
    rewrite settled_is_final; cbn; [reflexivity | discriminate].
  - intros k Hk Hx Hl.
    rewrite (Hb k); trivial;
      [|now apply crosses_iff
       |intros n Hn; apply crosses_false_iff; now apply Hl].
    rewrite settled_is_final; cbn; [reflexivity | discriminate].
Qed.

(** X11: [execute] has no timeout of its own.  On a stream that emits rows
    and then nothing, the promise stays pending exactly when no row
    arrived with the estimate over the budget: only truncation settles it. *)
Theorem silent_stream_stays_pending
    (email key project name : string) (service : option string)
    (params_arg : option JSObject.t) (rows : list row) :
  streams w email key project name service params_arg (map Data rows) ->
  (snd (execute w email key project name service params_arg) = Pending <->
   forall n, 10 <= n < List.length rows -> ~ exceeds_budget w rows n).
Proof.
  intros Hs. rewrite (execute_streams _ _ _ _ _ _ _ _ Hs).
  fold (after_rows w rows).
  destruct (after_rows_cases rows) as [[Hno E]|(k & Hk & Hc & _ & E)];
    rewrite E; cbn [h_promise].
  - split; trivial. intros _ n Hn. apply crosses_false_iff. now apply Hno.
  - split; [discriminate|]. intros Hno. exfalso.
    apply (Hno k); [lia|]. now apply crosses_iff.
Qed.

Lemma one_more_row (a : Q) (m : nat) :
  (a * inject_Z (Z.of_nat (S m)) == a * inject_Z (Z.of_nat m) + a)%Q.
Proof.
  rewrite Nat2Z.inj_succ. unfold Z.succ. rewrite inject_Z_plus. ring.
Qed.

(** X12: a truncated result is over the budget by the estimate, and by
    less than one average row when it holds more than ten rows: the check
    runs before a row is added, so the rows held when it fails already
    exceed the budget. *)
Theorem truncated_result_overshoots
    (email key project name : string) (service : option string)
    (params_arg : option JSObject.t) (rows : list row) (r : result) :
  streams w email key project name service params_arg (row_stream rows) ->
  snd (execute w email key project name service params_arg) = Resolved r ->
  truncated r = true ->
  exceeds_budget w rows (List.length (results r)) /\
  (10 < List.length (results r) ->
   (estimate w rows * inject_Z (Z.of_nat (List.length (results r)))
    <= budget + estimate w rows)%Q).
Proof.
  intros Hs Hr Ht. rewrite (execute_streams _ _ _ _ _ _ _ _ Hs) in Hr.
  destruct (row_stream_outcome w rows) as [[_ E]|(k & Hk & Hc & Hl & E)];
    rewrite E in Hr; injection Hr as <-; [discriminate|].
  cbn [results]. rewrite length_firstn.
  replace (Nat.min k (List.length rows)) with k by lia. split.
  - now apply crosses_iff.
  - intros Hgt. destruct k as [|m]; [lia|].
    specialize (Hl m ltac:(lia)). unfold crosses in Hl.
    apply negb_false_iff, Qle_bool_iff in Hl.
    rewrite one_more_row. lra.
Qed.

Lemma estimate_nonneg (rows : list row) :
  (0 <= size w (firstn 10 rows))%Z -> (0 <= estimate w rows)%Q.
Proof.
  intros H. unfold estimate. apply Qle_shift_div_l; [reflexivity|].
  rewrite Qmult_0_l. change 0%Q with (inject_Z 0). now rewrite <- Zle_Qle.
Qed.

Lemma exceeds_budget_mono (rows : list row) (n m : nat) :
  (0 <= size w (firstn 10 rows))%Z -> n <= m ->
  exceeds_budget w rows n -> exceeds_budget w rows m.
Proof.
  intros Hs Hnm. unfold exceeds_budget. intros H.
  apply Qlt_le_trans with (1 := H).
  rewrite !(Qmult_comm (estimate w rows)).
  apply Qmult_le_compat_r; [|now apply estimate_nonneg].
  rewrite <- Zle_Qle. lia.
Qed.

(** X13: when the sampled size is not negative, as a byte count is not, a
    stream that ends is truncated exactly when it has more than ten rows
    and the estimate times all of its rows but the last exceeds the
    budget: the last row is the latest that can be refused. *)
Theorem truncated_iff_last_row_refused
    (email key project name : string) (service : option string)
    (params_arg : option JSObject.t) (rows : list row) :
  (0 <= size w (firstn 10 rows))%Z ->
  streams w email key project name service params_arg (row_stream rows) ->
  exists r,
    snd (execute w email key project name service params_arg) = Resolved r /\
    (truncated r = true <->
     10 < List.length rows /\
     exceeds_budget w rows (List.length rows - 1)).
Proof.
  intros Hsize Hs. rewrite (execute_streams _ _ _ _ _ _ _ _ Hs).
  destruct (row_stream_outcome w rows) as [[Hno ->]|(k & Hk & Hc & Hl & ->)].
  - exists (Result false rows). split; trivial. cbn [truncated].
    split; [discriminate|]. intros [Hlen Hx]. apply crosses_iff in Hx.
    rewrite Hno in Hx by lia. discriminate.
  - exists (Result true (firstn k rows)). split; trivial. cbn [truncated].
    split; trivial. intros _. split; [lia|].
    apply exceeds_budget_mono with (n := k); trivial; [lia|].
    now apply crosses_iff.
Qed.

(** X7: when the credentials are refused or the dataset lookup fails,
    [execute] rejects with a new error whose message is the original one
    after ["Unable to execute Google Query: "] and which has neither the
    [code] nor the [statusCode] of the original; the template is not read
    and no query is submitted. *)
Theorem early_failure_is_wrapped
    (email key project name : string) (service : option string)
    (params_arg : option JSObject.t) (e : error) :
  (auth w email key = inl e \/
   exists cred, auth w email key = inr cred /\
                dataset_get w project cred (service_name service) "US"
                = inl e) ->
  snd (execute w email key project name service params_arg)
  = Rejected (Error ("Unable to execute Google Query: " ++ message e)
                    None None)
  /\ Forall (fun ev => match ev with
                       | EvAuth _ _ | EvDatasetGet _ _ _ => True
                       | _ => False
                       end)
            (fst (execute w email key project name service params_arg)).
Proof.
  rewrite execute_spec. cbv zeta.
  intros [H|(cred & Hc & Hd)].
  - rewrite H. split; [reflexivity|]. now repeat constructor.
  - rewrite Hc, Hd. split; [reflexivity|]. now repeat constructor.
Qed.

End StreamMore.

Module StreamSamples.

Lemma truncation_is_final_witness :
  h_results
    (consume (Sample.world true Sample.files [])
       (map Data (repeat 100000%Z 11)
        ++ [Data 5%Z; StreamError (new_Error "reset"); Data 6%Z; End]))
  = repeat 100000%Z 10.
Proof.
  apply (truncation_is_final (Sample.world true Sample.files [])
           (repeat 100000%Z 11)
           [Data 5%Z; StreamError (new_Error "reset"); Data 6%Z; End]
           (Result true (repeat 100000%Z 10))).
  vm_compute. reflexivity.
Defined.

Lemma streams_events (evs : list (stream_event Z)) (name text : string)
    (params_arg : option JSObject.t) :
  Sample.file_lookup
    (query_path (MoreSamples.streaming evs) name None) Sample.files
  = Some text ->
  streams (MoreSamples.streaming evs) "bot@example.com" "key" "helix" name
          (Some "prod") params_arg evs.
Proof.
  intros H. exists [EvAuth "bot@example.com" "key";
                    EvDatasetGet "helix" "helix_logging_prod" "US"], tt, text.
  repeat split. cbn [readFileSync MoreSamples.streaming]. now rewrite H.
Qed.

Lemma stream_error_after_rows_witness :
  snd (execute
         (MoreSamples.streaming
            (map Data [1; 2; 3]%Z
             ++ StreamError (Error "quotaExceeded" None (Some 403%Z))
                :: [End]))
         "bot@example.com" "key" "helix" "rum-pageviews" (Some "prod") None)
  = Rejected (Error "quotaExceeded" None (Some 403%Z)).
Proof.
  apply (stream_error_after_rows
           (MoreSamples.streaming
              (map Data [1; 2; 3]%Z
               ++ StreamError (Error "quotaExceeded" None (Some 403%Z))
                  :: [End]))
           "bot@example.com" "key" "helix" "rum-pageviews" (Some "prod") None
           [1; 2; 3]%Z (Error "quotaExceeded" None (Some 403%Z)) [End]).
  - apply (streams_events _ "rum-pageviews" Sample.pageviews_sql).
    reflexivity.
  - cbn [List.length]. intros n Hn. lia.
Defined.

Lemma silent_stream_stays_pending_witness :
  snd (execute (MoreSamples.streaming (map Data [7; 8]%Z))
         "bot@example.com" "key" "helix" "rum-pageviews" (Some "prod") None)
  = Pending.
Proof.
  apply (silent_stream_stays_pending
           (MoreSamples.streaming (map Data [7; 8]%Z))
           "bot@example.com" "key" "helix" "rum-pageviews" (Some "prod") None
           [7; 8]%Z).
  - apply (streams_events _ "rum-pageviews" Sample.pageviews_sql).
    reflexivity.
  - cbn [List.length]. intros n Hn. lia.
Defined.

Lemma truncated_result_overshoots_witness :
  exceeds_budget (Sample.world true Sample.files Sample.thirteen_rows)
                 Sample.thirteen_rows 11
  /\ (estimate (Sample.world true Sample.files Sample.thirteen_rows)
               Sample.thirteen_rows * inject_Z 11
      <= budget
         + estimate (Sample.world true Sample.files Sample.thirteen_rows)
                    Sample.thirteen_rows)%Q.
Proof.
  destruct (truncated_result_overshoots
              (Sample.world true Sample.files Sample.thirteen_rows)
              "bot@example.com" "key" "helix" "rum-pageviews" (Some "prod")
              None Sample.thirteen_rows
              (Result true (repeat 90000%Z 11))) as [Hx Hb].
  - apply (SampleFacts.streams_sample "rum-pageviews" Sample.pageviews_sql).
    reflexivity.
  - vm_compute. reflexivity.
  - reflexivity.
  - split; [exact Hx|]. apply Hb. vm_compute. repeat constructor.
Defined.

Lemma truncated_iff_last_row_refused_witness :
  exists r,
    snd (execute (Sample.world true Sample.files Sample.thirteen_rows)
           "bot@example.com" "key" "helix" "rum-pageviews" (Some "prod")
           None) = Resolved r /\
    (truncated r = true <->
     (10 < 13)%nat /\
     exceeds_budget (Sample.world true Sample.files Sample.thirteen_rows)
                    Sample.thirteen_rows 12).
Proof.
  apply (truncated_iff_last_row_refused
           (Sample.world true Sample.files Sample.thirteen_rows)
           "bot@example.com" "key" "helix" "rum-pageviews" (Some "prod")
           None Sample.thirteen_rows).
  - vm_compute. discriminate.
  - apply (SampleFacts.streams_sample "rum-pageviews" Sample.pageviews_sql).
    reflexivity.
Defined.

Lemma early_failure_is_wrapped_witness :
  snd (execute MoreSamples.dataset_missing "bot@example.com" "key" "helix"
         "rum-pageviews" (Some "prod") None)
  = Rejected
      (Error
         "Unable to execute Google Query: Not found: Dataset helix:helix_logging_prod"
         None None).
Proof.
  apply (early_failure_is_wrapped MoreSamples.dataset_missing
           "bot@example.com" "key" "helix" "rum-pageviews" (Some "prod") None
           (Error "Not found: Dataset helix:helix_logging_prod"
                  None (Some 404%Z))).
  right. now exists tt.
Defined.

End StreamSamples.

(** ** The action *)

Module ActionMore.
Import JSString JSStringFacts JSObject JSObjectFacts Action.

(** *** Splitting at one code unit *)

Lemma split_char_cons (c d : ascii) (s : string) :
  split (String c "") (String d s) =
  if Ascii.eqb c d then "" :: split (String c "") s
  else push_front d (split (String c "") s).
Proof.
  rewrite split_cons, prefix_cons, prefix_nil, andb_true_r. reflexivity.
Qed.

Lemma split_char_app (c : ascii) (a b : string) :
  split (String c "") (a ++ String c b)
  = split (String c "") a ++ split (String c "") b.
Proof.
  induction a as [|d a IH].
  - cbn [append]. now rewrite split_char_cons, Ascii.eqb_refl.
  - cbn [append]. rewrite !split_char_cons, IH.
    destruct (Ascii.eqb c d); [reflexivity|].
    apply push_front_app, split_from_nonempty.
Qed.

Lemma occurs_char_cons (c d : ascii) (s : string) :
  occurs (String c "") (String d s)
  = Ascii.eqb c d || occurs (String c "") s.
Proof. cbn [occurs]. now rewrite prefix_cons, prefix_nil, andb_true_r. Qed.

Lemma split_char_none (c : ascii) (s : string) :
  occurs (String c "") s = false -> split (String c "") s = [s].
Proof.
  induction s as [|d s IH]; intros H; [reflexivity|].
  rewrite occurs_char_cons in H. apply orb_false_iff in H as [Hd Hs].
  now rewrite split_char_cons, Hd, (IH Hs).
Qed.

Lemma last_of_app {A} (l1 l2 : list A) (d : A) :
  l2 <> [] -> List.last (l1 ++ l2) d = List.last l2 d.
Proof.
  intros H. induction l1 as [|x l1 IH]; [reflexivity|].
  cbn [app List.last]. rewrite <- IH.
  destruct (l1 ++ l2) eqn:E; trivial.
  apply app_eq_nil in E as [_ ->]. congruence.
Qed.

Lemma last_word_after_space (a b : string) :
  last_word (a ++ " " ++ b) = last_word b.
Proof.
  unfold last_word.
  change (a ++ " " ++ b)%string with (a ++ String " " b)%string.
  rewrite (split_char_app " " a b).
  destruct (split " " b) as [|x l] eqn:E;
    [now apply split_from_nonempty in E|].
  apply last_of_app. discriminate.
Qed.

Lemma last_word_single (b : string) :
  occurs " " b = false -> last_word b = b.
Proof. intros H. unfold last_word. now rewrite (split_char_none " " b H). Qed.

(** *** [run] *)

(** X14: whatever the request data holds, the parameters [run] hands on
    carry the service account, its key and the project of the environment
    and a [domainkey]; every other name has the value the request gave it.
    A request cannot supply credentials of its own. *)
Theorem run_sets_credentials (authorization : option string)
    (email key project : jsval) (data : JSObject.t) :
  let params := run_params authorization email key project data in
  get "GOOGLE_CLIENT_EMAIL" params = Some email /\
  get "GOOGLE_PRIVATE_KEY" params = Some key /\
  get "GOOGLE_PROJECT_ID" params = Some project /\
  get "domainkey" params = Some (resolve_domainkey authorization data) /\
  forall name,
    ~ In name ["GOOGLE_CLIENT_EMAIL"; "GOOGLE_PRIVATE_KEY";
               "GOOGLE_PROJECT_ID"; "domainkey"] ->
    get name params = get name data.
Proof.
  cbv zeta. unfold run_params. repeat split.
  - rewrite !get_set_other by discriminate. apply get_set_same. discriminate.
  - rewrite get_set_other by discriminate. apply get_set_same. discriminate.
  - apply get_set_same. discriminate.
  - rewrite !get_set_other by discriminate. apply get_set_same. discriminate.
  - intros name Hn. cbn [In] in Hn.
    rewrite !get_set_other; trivial; intros ->; tauto.
Qed.

(** X15: with an authorization header of a scheme and a token, the token,
    being the text after the last space, becomes the [domainkey], whatever
    [domainkey] the request carries. *)
Theorem bearer_token_is_domainkey (scheme token : string)
    (email key project : jsval) (data : JSObject.t) :
  occurs " " token = false ->
  get "domainkey"
      (run_params (Some (scheme ++ " " ++ token)%string) email key project
                  data)
  = Some (JStr token).
Proof.
  intros H. unfold run_params. rewrite !get_set_other by discriminate.
  rewrite get_set_same by discriminate. cbn [resolve_domainkey].
  now rewrite last_word_after_space, last_word_single.
Qed.

Lemma bearer_token_is_domainkey_witness :
  get "domainkey"
      (run_params (Some ("Bearer" ++ " " ++ "tok-123")%string) (JStr "bot")
                  (JStr "key") (JStr "helix") Sample.request_data)
  = Some (JStr "tok-123").
Proof.
  apply (bearer_token_is_domainkey "Bearer" "tok-123"). reflexivity.
Defined.

(** X16: without an authorization header the [domainkey] is never falsy:
    a missing, empty, zero or false value of the request is replaced by
    ['secret'].  With a header there is no such fallback: a header that
    ends in a space makes the [domainkey] the empty string. *)
Theorem domainkey_fallback (data : JSObject.t) :
  truthy (resolve_domainkey None data) = true /\
  (truthy (param "domainkey" data) = false ->
   resolve_domainkey None data = JStr "secret") /\
  forall scheme,
    resolve_domainkey (Some (scheme ++ " ")%string) data = JStr "".
Proof.
  repeat split.
  - cbn [resolve_domainkey].
    now destruct (truthy (param "domainkey" data)) eqn:E.
  - intros H. cbn [resolve_domainkey]. now rewrite H.
  - intros scheme. cbn [resolve_domainkey]. f_equal.
    change (scheme ++ " ")%string with (scheme ++ " " ++ "")%string.
    now rewrite last_word_after_space.
Qed.

(** *** [runExec] *)

Lemma strip_extension_no_dot (s : string) :
  occurs "." s = false -> strip_extension s = s.
Proof.
  induction s as [|c s IH]; intros H; [reflexivity|].
  rewrite (occurs_char_cons "." c s) in H.
  apply orb_false_iff in H as [Hc Hs].
  cbn [strip_extension]. rewrite Ascii.eqb_sym, Hc. cbn [andb].
  now rewrite IH.
Qed.

(** X17: the query name is the path up to its first dot.  For a name
    without a dot, [name.ext] is cut to [name] whatever the extension, also
    one with further dots, and a path without a dot is kept whole. *)
Theorem query_name_is_cut_at_first_dot (name ext : string) :
  occurs "." name = false -> has_line_terminator ext = false ->
  strip_extension (name ++ "." ++ ext) = name /\
  strip_extension name = name.
Proof.
  intros Hn He. split; [|now apply strip_extension_no_dot].
  change (name ++ "." ++ ext)%string with (name ++ String "." ext)%string.
  induction name as [|c name IH].
  - cbn. now rewrite He.
  - rewrite (occurs_char_cons "." c name) in Hn.
    apply orb_false_iff in Hn as [Hc Hn].
    change (String c name ++ String "." ext)%string
      with (String c (name ++ String "." ext)).
    cbn [strip_extension]. rewrite Ascii.eqb_sym, Hc. cbn [andb].
    now rewrite (IH Hn).
Qed.

Lemma query_name_is_cut_at_first_dot_witness :
  strip_extension ("rum-dashboard/pageviews" ++ "." ++ "v2.json")
  = "rum-dashboard/pageviews".
Proof.
  apply (query_name_is_cut_at_first_dot "rum-dashboard/pageviews" "v2.json");
    reflexivity.
Defined.

Section RunExecMore.

Context {rows meta : Type}.
Variable sv : @Services rows meta.

Lemma storeResult_stored (query result : string) (ctx : context) :
  stored (fst (storeResult sv query result ctx)) = [] \/
  (In query STORED_QUERIES /\ invoker ctx = JStr "helix3/admin" /\
   stored (fst (storeResult sv query result ctx)) = [result]).
Proof.
  unfold storeResult.
  destruct (existsb (String.eqb query) STORED_QUERIES) eqn:Hq;
    [|now left].
  destruct (invoker ctx) as [| | |s]; try now left.
  destruct (String.eqb_spec s "helix3/admin") as [->|]; [|now left].
  cbn [negb orb].
  destruct (match rso ctx with Some so => so | None => _ end) as [site org].
  right. repeat split.
  apply existsb_exists in Hq as (q & Hin & Hq).
  apply String.eqb_eq in Hq. now subst.
Qed.

(** X18: [runExec] writes to the storage bucket at most once, and only the
    JSON response of a successful query whose name is in [STORED_QUERIES]
    and that the admin service invoked; what it writes is the body it
    answers with, and a failing or refused write does not change the
    answer. *)
Theorem results_stored_only_for_admin
    (params : JSObject.t) (pathname : string) (ctx : context) :
  stored (fst (runExec sv params pathname ctx)) = [] \/
  exists env,
    execute sv (param "GOOGLE_CLIENT_EMAIL" params)
               (param "GOOGLE_PRIVATE_KEY" params)
               (param "GOOGLE_PROJECT_ID" params)
               (strip_extension pathname) (cleanRequestParams sv params)
    = inr env /\
    JSString.endsWith ".txt" pathname = false /\
    JSString.endsWith ".csv" pathname = false /\
    JSString.endsWith ".chart" pathname = false /\
    In (strip_extension pathname) STORED_QUERIES /\
    invoker ctx = JStr "helix3/admin" /\
    exists content,
      stored (fst (runExec sv params pathname ctx)) = [content] /\
      snd (runExec sv params pathname ctx)
      = inr (Response content 200
               (with_content_type "application/json" (headers env))).
Proof.
  unfold runExec.
  destruct (JSString.endsWith ".txt" pathname) eqn:Htxt; [now left|].
  destruct (execute sv _ _ _ _ _) as [e|env] eqn:Hexec; [now left|].
  destruct (JSString.endsWith ".csv" pathname) eqn:Hcsv; [now left|].
  destruct (JSString.endsWith ".chart" pathname) eqn:Hchart; [now left|].
  cbn [fst snd stored flat_map app].
  match goal with
  | |- context [storeResult sv ?q ?r ctx] =>
      destruct (storeResult_stored q r ctx) as [E|(Hq & Hi & E)];
      fold (stored (fst (storeResult sv q r ctx))); rewrite E
  end; [now left|].
  right. exists env. repeat split; trivial. eexists. split; reflexivity.
Qed.

(** X19: for a path that does not end in [.txt], [runExec] calls [execute]
    exactly once, with the cleaned parameters, and always answers with a
    response.  When [execute] fails the response carries the message of
    the error, the status code of the error, or 500 when it has none or
    it is 0, and nothing is stored.  For a path that ends in [.txt],
    [execute] is not called and the promise of [queryInfo], resolved or
    rejected, is the answer. *)
Theorem runExec_answers
    (params : JSObject.t) (pathname : string) (ctx : context) :
  (JSString.endsWith ".txt" pathname = false ->
   executed_with (fst (runExec sv params pathname ctx))
   = [cleanRequestParams sv params] /\
   (exists resp, snd (runExec sv params pathname ctx) = inr resp) /\
   (forall e,
      execute sv (param "GOOGLE_CLIENT_EMAIL" params)
                 (param "GOOGLE_PRIVATE_KEY" params)
                 (param "GOOGLE_PROJECT_ID" params)
                 (strip_extension pathname) (cleanRequestParams sv params)
      = inl e ->
      exists code,
        snd (runExec sv params pathname ctx)
        = inr (Response (message e) code
                 [("x-error", JStr (cleanupHeaderValue sv (message e)))]) /\
        code <> 0%Z /\
        (forall c, statusCode e = Some c -> c <> 0%Z -> code = c) /\
        (statusCode e = None \/ statusCode e = Some 0%Z -> code = 500%Z) /\
        stored (fst (runExec sv params pathname ctx)) = []))
  /\ (JSString.endsWith ".txt" pathname = true ->
      runExec sv params pathname ctx
      = ([CallQueryInfo pathname params], queryInfo sv pathname params)).
Proof.
  unfold runExec. split.
  - intros ->.
    destruct (execute sv _ _ _ _ _) as [e|env] eqn:Hexec.
    + split; [reflexivity|]. split; [now eexists|].
      intros e' [= <-]. eexists. split; [reflexivity|]. cbn [fst stored flat_map].
      repeat split.
      * destruct (statusCode e) as [c|]; [|discriminate].
        destruct (Z.eqb_spec c 0); [discriminate | assumption].
      * intros c -> Hc. apply Z.eqb_neq in Hc. now rewrite Hc.
      * now intros [->| ->].
    + destruct (JSString.endsWith ".csv" pathname);
        [|destruct (JSString.endsWith ".chart" pathname)];
        (split; [|split; [now eexists | discriminate]]);
        cbn [fst executed_with flat_map app]; trivial.
      match goal with
      | |- context [storeResult sv ?q ?r ctx] =>
          fold (executed_with (fst (storeResult sv q r ctx)));
          now rewrite (proj1 (ActionFacts.storeResult_calls sv q r ctx))
      end.
  - now intros ->.
Qed.

End RunExecMore.

Lemma runExec_answers_witness :
  runExec Sample.services Sample.request_data "rum-pageviews.txt"
          Sample.admin_context
  = ([CallQueryInfo "rum-pageviews.txt" Sample.request_data],
     inr (Response "" 200 [])).
Proof.
  apply (runExec_answers Sample.services Sample.request_data
           "rum-pageviews.txt" Sample.admin_context).
  reflexivity.
Defined.

(** *** The copy of the request parameters in the JSON answer *)

(** X23: whatever [execute] resolves with, the JSON answer of [runExec]
    renders the [requestParams] of the envelope without the property
    [domainkey] and with every other property as it was, and what is
    stored is that rendering; [execute] was called once, with the cleaned
    request map, before the property is deleted. *)
Theorem echoed_copy_has_no_domainkey {rows meta : Type}
    (sv : @Services rows meta)
    (params : JSObject.t) (pathname : string) (ctx : context)
    (env : envelope rows meta) :
  let query := strip_extension pathname in
  let cleaned := cleanRequestParams sv params in
  let echoed := redact (requestParams env) in
  let rendered :=
    sshonify sv (results env) (description env) echoed
             (responseDetails env) (responseMetadata env) (truncated env) in
  endsWith ".txt" pathname = false ->
  endsWith ".csv" pathname = false ->
  endsWith ".chart" pathname = false ->
  execute sv (param "GOOGLE_CLIENT_EMAIL" params)
             (param "GOOGLE_PRIVATE_KEY" params)
             (param "GOOGLE_PROJECT_ID" params) query cleaned = inr env ->
  (get "domainkey" echoed = None /\
   (forall v, ~ In ("domainkey", v) echoed) /\
   (forall k, k <> "domainkey" -> get k echoed = get k (requestParams env)) /\
   incl echoed (requestParams env))
  /\ snd (runExec sv params pathname ctx)
     = inr (Response rendered 200
              (with_content_type "application/json" (headers env)))
  /\ Forall (fun content => content = rendered)
            (stored (fst (runExec sv params pathname ctx)))
  /\ executed_with (fst (runExec sv params pathname ctx)) = [cleaned].
Proof.
  intros query cleaned echoed rendered Htxt Hcsv Hchart Hexec.
  split; [apply ActionFacts.redact_spec|].
  now apply ActionFacts.runExec_json.
Qed.

Lemma echoed_copy_has_no_domainkey_witness :
  let params :=
    run_params None (JStr "bot@example.com") (JStr "key") (JStr "helix")
               Sample.request_data in
  get "domainkey" (redact (cleanRequestParams Sample.services params)) = None
  /\ runExec Sample.services params "rum-pageviews.json" Sample.admin_context
     = ([CallExecute (JStr "bot@example.com") (JStr "key") (JStr "helix")
           "rum-pageviews"
           [("url", JStr "example.com"); ("limit", JNum 10);
            ("domainkey", JStr "s3cr3t")];
         CallPut "org/rum/site/rum-pageviews/1700000000000.json"
                 "url,limit" "application/json"],
        inr (Response "url,limit" 200
               [("content-type", JStr "application/json")])).
Proof.
  intros params.
  destruct (echoed_copy_has_no_domainkey Sample.services params
              "rum-pageviews.json" Sample.admin_context
              (Envelope [1; 2]%Z false [] tt
                 (cleanRequestParams Sample.services params) tt tt)
              eq_refl eq_refl eq_refl eq_refl)
    as ((Hnone & _) & _).
  split; [exact Hnone|]. reflexivity.
Defined.

(** *** The headers of a response *)

Lemma get_app (k : string) (a b : t) :
  get k (a ++ b) = match get k a with Some v => Some v | None => get k b end.
Proof.
  induction a as [|[k' v'] a IH]; [reflexivity|]. cbn [app get].
  now destruct (String.eqb k' k).
Qed.

Lemma get_define (k k' : string) (v : jsval) (o : t) :
  get k (define k' v o) = if String.eqb k' k then Some v else get k o.
Proof.
  destruct (String.eqb_spec k' k) as [->|Hne].
  - apply get_define_same.
  - apply get_define_other. congruence.
Qed.

(** Under a name, a spread leaves the last value of the spread object,
    or what was there before. *)
Lemma get_spread (hs acc : t) (k : string) :
  get k (fold_left (fun acc kv => define (fst kv) (snd kv) acc) hs acc)
  = match get k (rev hs) with Some v => Some v | None => get k acc end.
Proof.
  revert acc. induction hs as [|[k' v'] hs IH]; intros acc; [reflexivity|].
  cbn [fold_left rev fst snd]. rewrite IH, get_app, get_define.
  destruct (get k (rev hs)); trivial. cbn [get].
  now destruct (String.eqb k' k).
Qed.

Lemma get_In (k : string) (v : jsval) (o : t) :
  NoDup (keys o) -> In (k, v) o -> get k o = Some v.
Proof.
  induction o as [|[k' v'] o IH]; intros Hnd Hin; [destruct Hin|].
  inversion Hnd as [|? ? Hk Hnd']; subst. cbn [get].
  destruct Hin as [[= -> ->]|Hin]; [now rewrite String.eqb_refl|].
  destruct (String.eqb_spec k' k) as [->|]; [|now apply IH].
  exfalso. apply Hk. change k with (fst (k, v)). now apply in_map.
Qed.

(** X20: the [headers] object that [runExec] hands to [new Response],
    [{ 'content-type': t, ...headers }], for an envelope whose header
    names are written without upper-case letters, so that the entries of
    the object are so many headers: every header of the envelope is in it
    with its value and wins over the content type [runExec] names; the
    entry [content-type] is the one [runExec] names only when the envelope
    has no [content-type] of its own; and no other entry is added. *)
Theorem envelope_headers_override (type : string) (hs : t) :
  NoDup (keys hs) -> forallb lower_case (keys hs) = true ->
  (forall k v, In (k, v) hs -> get k (with_content_type type hs) = Some v)
  /\ (get "content-type" hs = None ->
      get "content-type" (with_content_type type hs) = Some (JStr type))
  /\ (forall k, get k (with_content_type type hs) <> None ->
                k = "content-type" \/ In k (keys hs))
  /\ forallb lower_case (keys (with_content_type type hs)) = true.
Proof.
  intros Hnd Hlow. unfold with_content_type.
  assert (Hrev : forall k, get k (rev hs) = None <-> get k hs = None).
  { intros k. rewrite !get_none_iff. unfold keys.
    now rewrite map_rev, <- in_rev. }
  assert (Hkeys : forall k,
             get k (fold_left (fun acc kv => define (fst kv) (snd kv) acc)
                              hs [("content-type", JStr type)]) <> None ->
             k = "content-type" \/ In k (keys hs)).
  { intros k H. rewrite get_spread in H.
    destruct (get k (rev hs)) eqn:E.
    + right. destruct (in_dec string_dec k (keys hs)) as [|Hn]; trivial.
      apply get_none_iff, Hrev in Hn. congruence.
    + left. cbn [get] in H.
      destruct (String.eqb_spec "content-type" k); congruence. }
  repeat split.
  - intros k v Hin. rewrite get_spread.
    rewrite (get_In k v (rev hs)); trivial.
    + unfold keys. rewrite map_rev. now apply NoDup_rev.
    + now apply -> in_rev.
  - intros H. rewrite get_spread.
    apply Hrev in H. rewrite H. reflexivity.
  - exact Hkeys.
  - apply forallb_forall. intros k Hk.
    destruct (Hkeys k) as [->|Hin].
    + intros Hn. apply get_none_iff in Hn. contradiction.
    + reflexivity.
    + rewrite forallb_forall in Hlow. now apply Hlow.
Qed.

Lemma envelope_headers_override_witness :
  get "content-type"
      (with_content_type "application/json"
         [("cache-control", JStr "max-age=600");
          ("content-type", JStr "text/plain")])
  = Some (JStr "text/plain").
Proof.
  apply (envelope_headers_override "application/json"
           [("cache-control", JStr "max-age=600");
            ("content-type", JStr "text/plain")]).
  - repeat constructor; simpl; intuition discriminate.
  - reflexivity.
  - right. now left.
Defined.

(** *** The query string of the chart redirect *)




End ActionMore.

(** ** [parseInt] and the decimal form of an integer *)

Module ParseIntMore.
Import ParseInt.

Local Open Scope Z_scope.

Lemma digits_step (a : Z) (s : string) :
  digits_prefix (Some a) (String "0" s) = digits_prefix (Some (a * 10 + 0)) s
  /\ digits_prefix (Some a) (String "1" s) = digits_prefix (Some (a * 10 + 1)) s
  /\ digits_prefix (Some a) (String "2" s) = digits_prefix (Some (a * 10 + 2)) s
  /\ digits_prefix (Some a) (String "3" s) = digits_prefix (Some (a * 10 + 3)) s
  /\ digits_prefix (Some a) (String "4" s) = digits_prefix (Some (a * 10 + 4)) s
  /\ digits_prefix (Some a) (String "5" s) = digits_prefix (Some (a * 10 + 5)) s
  /\ digits_prefix (Some a) (String "6" s) = digits_prefix (Some (a * 10 + 6)) s
  /\ digits_prefix (Some a) (String "7" s) = digits_prefix (Some (a * 10 + 7)) s
  /\ digits_prefix (Some a) (String "8" s) = digits_prefix (Some (a * 10 + 8)) s
  /\ digits_prefix (Some a) (String "9" s) = digits_prefix (Some (a * 10 + 9)) s.
Proof. repeat split. Qed.

(** Reading the digits of a decimal numeral continues the accumulator as
    the numeral's own evaluation does. *)
Lemma digits_acc (d : Decimal.uint) (acc : positive) :
  digits_prefix (Some (Z.pos acc)) (NilEmpty.string_of_uint d)
  = Some (Z.pos (Pos.of_uint_acc d acc)).
Proof.
  revert acc.
  induction d as [|d IH|d IH|d IH|d IH|d IH|d IH|d IH|d IH|d IH|d IH];
    intros acc; cbn [NilEmpty.string_of_uint Pos.of_uint_acc];
    [reflexivity|..];
    destruct (digits_step (Z.pos acc) (NilEmpty.string_of_uint d))
      as (H0 & H1 & H2 & H3 & H4 & H5 & H6 & H7 & H8 & H9);
    rewrite ?H0, ?H1, ?H2, ?H3, ?H4, ?H5, ?H6, ?H7, ?H8, ?H9, <- IH;
    do 2 f_equal; lia.
Qed.

Lemma digits_zero (d : Decimal.uint) :
  digits_prefix (Some 0) (NilEmpty.string_of_uint d)
  = Some (Z.of_N (Pos.of_uint d)).
Proof.
  induction d as [|d IH|d IH|d IH|d IH|d IH|d IH|d IH|d IH|d IH|d IH];
    cbn [NilEmpty.string_of_uint Pos.of_uint]; [reflexivity|exact IH|..];
    apply (digits_acc d).
Qed.

Lemma digits_of_positive (p : positive) :
  digits_prefix None (NilEmpty.string_of_uint (Pos.to_uint p))
  = Some (Z.pos p)
  /\ NilZero.string_of_uint (Pos.to_uint p)
     = NilEmpty.string_of_uint (Pos.to_uint p)
  /\ of_string (NilEmpty.string_of_uint (Pos.to_uint p))
     = option_map round_double
         (digits_prefix None (NilEmpty.string_of_uint (Pos.to_uint p))).
Proof.
  pose proof (DecimalPos.Unsigned.of_to p) as H.
  pose proof (digits_zero (Pos.to_uint p)) as Hz. rewrite H in Hz.
  destruct (Pos.to_uint p) as [|d|d|d|d|d|d|d|d|d|d]; [discriminate|..];
    repeat split; exact Hz.
Qed.

(** A safe integer is a double. *)
Lemma round_double_safe (z : Z) :
  - MAX_SAFE_INTEGER <= z <= MAX_SAFE_INTEGER -> round_double z = z.
Proof.
  unfold MAX_SAFE_INTEGER, round_double. intros Hz.
  destruct (Z.ltb_spec (Z.abs z) (2 ^ 53)) as [_|Hge]; [reflexivity|lia].
Qed.

Lemma safe_is_printed_plainly (z : Z) :
  - MAX_SAFE_INTEGER <= z <= MAX_SAFE_INTEGER ->
  (INFINITY <=? Z.abs z) = false /\ (Z.abs z <? 10 ^ 21) = true.
Proof.
  unfold MAX_SAFE_INTEGER, INFINITY. intros Hz.
  assert (H53 : 2 ^ 53 <= 2 ^ 1024) by (apply Z.pow_le_mono_r; lia).
  assert (H21 : 2 ^ 53 < 10 ^ 21) by reflexivity.
  split; [apply Z.leb_gt | apply Z.ltb_lt]; lia.
Qed.

(** Beyond the safe integers the digits round to the nearest double, and
    a number from [1e21] on is read through its exponent form: the
    doubles [1e21], [3e25], [1e23] and [-1.25e22], then [2^69]. *)
Example parseInt_of_large_values :
  parseInt (JStr "9007199254740993") = Some 9007199254740992
  /\ parseInt (JStr "-9007199254740995") = Some (-9007199254740996)
  /\ parseInt (JNum (10 ^ 21)) = Some 1
  /\ parseInt (JNum 30000000000000000570425344) = Some 3
  /\ parseInt (JNum 99999999999999991611392) = Some 1
  /\ parseInt (JNum (-12499999999999998951424)) = Some (-1)
  /\ parseInt (JNum 590295810358705651712) = Some 590295810358705651712
  /\ parseInt (JNum INFINITY) = None.
Proof. vm_compute. repeat split. Qed.

(** X22: the decimal text of a safe integer is read back as the integer:
    for [z] between [-(2^53 - 1)] and [2^53 - 1], a [limit] that reaches
    [execute] as the decimal string of [z] gives the same [maxResults] as
    the number [z], also when it is negative; a missing [limit] gives
    [NaN]. *)
Theorem limit_text_is_read_back (z : Z) (text : string) (ps : JSObject.t) :
  - MAX_SAFE_INTEGER <= z <= MAX_SAFE_INTEGER ->
  (JSObject.get "limit" ps = Some (JNum z) \/
   JSObject.get "limit" ps = Some (JStr (Chart.to_string (JNum z))) ->
   maxResults (request text ps) = Some z)
  /\ (JSObject.get "limit" ps = None -> maxResults (request text ps) = None).
Proof.
  intros Hz. unfold request, get_or_undefined. cbn [maxResults]. split.
  - intros [-> | ->].
    + cbn [parseInt]. destruct (safe_is_printed_plainly z Hz) as [-> ->].
      reflexivity.
    + cbn [parseInt Chart.to_string].
      destruct z as [|p|p]; [reflexivity| |].
      * cbn [Z.to_int NilZero.string_of_int].
        destruct (digits_of_positive p) as (H & -> & ->).
        rewrite H. cbn [option_map]. now rewrite round_double_safe.
      * cbn [Z.to_int NilZero.string_of_int].
        destruct (digits_of_positive p) as (H & -> & _).
        change (of_string
                  (String "-" (NilEmpty.string_of_uint (Pos.to_uint p))))
          with (option_map (fun n => - round_double n)
                  (digits_prefix None
                     (NilEmpty.string_of_uint (Pos.to_uint p)))).
        rewrite H. cbn [option_map]. rewrite round_double_safe; [reflexivity|].
        unfold MAX_SAFE_INTEGER in *. lia.
  - now intros ->.
Qed.

Lemma limit_text_is_read_back_witness :
  (- MAX_SAFE_INTEGER <= 25 <= MAX_SAFE_INTEGER)
  /\ maxResults
       (request "SELECT 1" [("limit", JStr "25"); ("offset", JStr "5")])
     = Some 25.
Proof.
  assert (H : - MAX_SAFE_INTEGER <= 25 <= MAX_SAFE_INTEGER)
    by (vm_compute; split; discriminate).
  split; [exact H|].
  apply (limit_text_is_read_back 25 "SELECT 1"
           [("limit", JStr "25"); ("offset", JStr "5")] H).
  right. reflexivity.
Defined.

End ParseIntMore.

(** ** The further properties on sample inputs *)

Module MoreSampleFacts.
Import Action.

Lemma declared_keys_witness :
  NoDup (JSObject.keys (getExtraParameters Sample.attribution_sql)).
Proof. exact (proj1 (HeaderMore.declared_keys Sample.attribution_sql)). Defined.

Lemma settlement_is_explained_witness :
  explained [Data 1%Z; End; StreamError (new_Error "late"); Data 2%Z]
    (h_promise
       (consume (Sample.world true Sample.files [])
          [Data 1%Z; End; StreamError (new_Error "late"); Data 2%Z])).
Proof.
  exact (settlement_is_explained (Sample.world true Sample.files [])
           [Data 1%Z; End; StreamError (new_Error "late"); Data 2%Z]).
Defined.

Lemma run_sets_credentials_witness :
  JSObject.get "GOOGLE_PRIVATE_KEY"
    (run_params None (JStr "bot@example.com") (JStr "key") (JStr "helix")
       [("GOOGLE_PRIVATE_KEY", JStr "forged"); ("url", JStr "example.com")])
  = Some (JStr "key").
Proof.
  exact (proj1 (proj2 (ActionMore.run_sets_credentials None
                         (JStr "bot@example.com") (JStr "key") (JStr "helix")
                         [("GOOGLE_PRIVATE_KEY", JStr "forged");
                          ("url", JStr "example.com")]))).
Defined.

Lemma domainkey_fallback_witness :
  resolve_domainkey None [("domainkey", JStr ""); ("url", JStr "x")]
  = JStr "secret".
Proof.
  apply (ActionMore.domainkey_fallback
           [("domainkey", JStr ""); ("url", JStr "x")]).
  reflexivity.
Defined.

Lemma results_stored_only_for_admin_witness :
  stored (fst (runExec Sample.services Sample.request_data
                 "rum-pageviews.csv" Sample.admin_context)) = [].
Proof.
  destruct (ActionMore.results_stored_only_for_admin Sample.services
              Sample.request_data "rum-pageviews.csv" Sample.admin_context)
    as [H|(env & _ & _ & Hcsv & _)]; [exact H | discriminate Hcsv].
Defined.


End MoreSampleFacts.
